(** * Chat persistence of bolt: rewind resolver and fallback store

    A shallow embedding of
    - [app/lib/persistence/useChatHistory.ts] (the hook [useChatHistory]:
      [processStoredMessages], [takeSnapshot], [storeMessageHistory]),
    - [app/lib/persistence/localStorage.ts] (the fallback store),
    - [app/lib/stores/chat.ts] (the chat store),
    followed by the properties of the specification that concern them.

    Conventions.  Array indices are [Z], as [findIndex] answers [-1].  A
    value of type [string | null | undefined] is an [option string].  The
    browser storage holds the parsed value of a key: on the data of this
    model (strings, lists, records with optional fields) [JSON.parse] undoes
    [JSON.stringify]; a value written from elsewhere that [JSON.parse]
    refuses is kept apart. *)

From Stdlib Require Import ZArith Lia.
From stdpp Require Import base list strings.

(** ** JavaScript primitives used by the sources *)

Module JS.

(** [ToBoolean] on [string | null | undefined]: only a non-empty string is
    truthy. *)
Definition truthy (s : option string) : bool :=
  match s with
  | Some s => negb (String.eqb s EmptyString)
  | None => false
  end.

(** [a || b] on optional strings. *)
Definition or_else (a b : option string) : option string :=
  if truthy a then a else b.

(** [a === b] for a string [a] and [b : string | null]; [a == b] agrees
    with it, since a string is loosely equal to neither [null] nor
    [undefined]. *)
Definition eqq (a : string) (b : option string) : bool :=
  match b with
  | Some b => String.eqb a b
  | None => false
  end.

Section Arrays.
Context {A : Type}.

(** The loop of [Array.prototype.findIndex], started at index [i]. *)
Fixpoint findIndexFrom (p : A → bool) (l : list A) (i : Z) : Z :=
  match l with
  | [] => (-1)%Z
  | x :: l' => if p x then i else findIndexFrom p l' (i + 1)%Z
  end.

Definition findIndex (p : A → bool) (l : list A) : Z :=
  findIndexFrom p l 0%Z.

(** [Array.prototype.find]; [None] is [undefined]. *)
Fixpoint find (p : A → bool) (l : list A) : option A :=
  match l with
  | [] => None
  | x :: l' => if p x then Some x else find p l'
  end.

(** A relative index of [slice], clamped into [0 .. len]. *)
Definition relIndex (len i : Z) : Z :=
  if (i <? 0)%Z then Z.max (len + i) 0 else Z.min i len.

(** [l.slice(start, end)]. *)
Definition slice (start end_ : Z) (l : list A) : list A :=
  let len := Z.of_nat (length l) in
  let k := relIndex len start in
  let final := relIndex len end_ in
  take (Z.to_nat (Z.max (final - k) 0)) (drop (Z.to_nat k) l).

(** [l[i]]; [None] is [undefined]. *)
Definition at_ (i : Z) (l : list A) : option A :=
  if (i <? 0)%Z then None else l !! Z.to_nat i.

(** [l[l.length - 1]]. *)
Definition lastItem (l : list A) : option A :=
  at_ (Z.of_nat (length l) - 1) l.
End Arrays.

End JS.

(** ** Data model *)

(** Modelled from the spec: the [Message] type comes from the package [ai],
    which is not part of the sources; section 3 gives its fields, the two
    roles and the two kinds of annotation. *)
Inductive Role := user | assistant.

(** An annotation ([JSONValue]): a string tag, or an object given by its
    entries. *)
Inductive JSONValue :=
| JString (s : string)
| JObject (entries : list (string * string)).

Module Message.
Record t := {
  id : string;
  role : Role;
  content : string;
  annotations : option (list JSONValue)
}.
End Message.

(** Modelled from the spec: [FileMap] ([~/lib/stores/files]) and [Snapshot]
    ([./types]) are declared outside the sources; section 3 gives the file
    entry as a file with its content and binary flag, or a folder, and the
    snapshot as [chatIndex], [files] and an optional [summary].  An entry of
    a [FileMap] may be [undefined]. *)
Inductive Dirent :=
| File (content : string) (isBinary : bool)
| Folder.

Definition FileMap := list (string * option Dirent).

Module Snapshot.
Record t := {
  chatIndex : string;
  files : FileMap;
  summary : option string
}.
End Snapshot.

Module ChatHistoryItem.
Record t {Metadata : Type} := {
  id : string;
  urlId : option string;
  description : option string;
  messages : list Message.t;
  timestamp : string;
  metadata : option Metadata
}.
Arguments t : clear implicits.
End ChatHistoryItem.

Module LocalStorageChat.
Record t {Metadata : Type} := {
  id : string;
  urlId : option string;
  description : option string;
  messages : list Message.t;
  timestamp : string;
  metadata : option Metadata
}.
Arguments t : clear implicits.
End LocalStorageChat.

Module ChatState.
Record t := {
  started : bool;
  aborted : bool;
  showChat : bool;
  currentChatId : option string;
  messages : list Message.t
}.
End ChatState.

(** The first artifact of the workbench store, as far as the hook reads
    it. *)
Module Artifact.
Record t := {
  id : string;
  title : string
}.
End Artifact.

(** How an evaluation ends: with a value, or with a thrown exception (a
    rejected promise, for an [async] function). *)
Inductive Completion (A : Type) :=
| Normal (a : A)
| Throw (e : string).
Arguments Normal {A} a.
Arguments Throw {A} e.

(** [IChatMetadata] is declared in [./db], outside the sources, and the
    metadata of a [LocalStorageChat] are of type [any]: the type of the
    metadata is a parameter. *)
Section Persistence.
Context {Metadata : Type}.

#[local] Abbreviation Chat := (LocalStorageChat.t Metadata).

(** *** The browser's [localStorage], as far as the sources use it

    What the key ['bolt-chats'] holds, as [getAllChatsFromLocalStorage]
    sees it: nothing or the empty string ([Absent]), a string that
    [JSON.parse] refuses ([Unparsable]), or the array it parses to
    ([Parsed]); a value that parses is taken to be an array of chats, the
    type the source gives it. *)
Inductive Item :=
| Absent
| Unparsable
| Parsed (chats : list Chat).

(** [chats] is the value under ['bolt-chats'] and [currentChat] the string
    under ['bolt-current-chat'].  [usable] tells whether the probe write
    [setItem('test', 'test')] of [isLocalStorageAvailable] goes through
    while the two keys hold the given values: it fails when the storage is
    disabled and when what is stored leaves no room for it.  [acceptsChats]
    and [acceptsCurrent] tell whether a [setItem] of that value goes through
    (it throws when the quota is exceeded). *)
Record Storage := {
  usable : Item → option string → bool;
  acceptsChats : list Chat → bool;
  acceptsCurrent : string → bool;
  chats : Item;
  currentChat : option string
}.

(** What the code does to the outside, besides [localStorage]. *)
Inductive Effect :=
| ConsoleWarn (msg : string)
| ConsoleError (msg : string)
| ToastError (msg : string)
| ReplaceState (pathname : string)
| SetMessages (id : string) (messages : list Message.t)
    (urlId description : option string) (metadata : option Metadata)
| SetSnapshot (id : string) (snapshot : Snapshot.t)
| RestoreSnapshot (id : string).

(** The primary store ([./db], outside the sources): what its calls
    answer. *)
Record Db := {
  getUrlId : string → Completion string;
  getNextId : Completion string;
  setMessages : string → list Message.t → option string → option string →
                option Metadata → Completion unit;
  setSnapshot : string → Snapshot.t → Completion unit
}.

(** Everything mutable: [localStorage], the chat store of [chat.ts], the
    atoms and the React state of [useChatHistory], and the effects so far
    (oldest first). *)
Record World := {
  storage : Storage;
  chatStore : ChatState.t;
  chatId : option string;
  description : option string;
  chatMetadata : option Metadata;
  archivedMessages : list Message.t;
  initialMessages : list Message.t;
  ready : bool;
  urlId : option string;
  effects : list Effect
}.

(** *** A state and exception monad over [World] *)

Definition Js (A : Type) : Type := World → Completion A * World.

#[global] Instance js_ret : MRet Js := λ A a w, (Normal a, w).
#[global] Instance js_bind : MBind Js := λ A B f m w,
  match m w with
  | (Normal a, w') => f a w'
  | (Throw e, w') => (Throw e, w')
  end.

Definition throw {A} (e : string) : Js A := λ w, (Throw e, w).

(** [try { body } catch (error) { handler }]. *)
Definition try_catch {A} (body : Js A) (handler : string → Js A) : Js A :=
  λ w, match body w with
       | (Normal a, w') => (Normal a, w')
       | (Throw e, w') => handler e w'
       end.

(** [await] of a call whose answer is known. *)
Definition await {A} (c : Completion A) : Js A := λ w, (c, w).

(** Reading a property of [o]: a [TypeError] when [o] is [undefined]. *)
Definition defined {A} (o : option A) : Js A :=
  match o with
  | Some a => mret a
  | None => throw "TypeError"
  end.

Definition get {A} (f : World → A) : Js A := λ w, (Normal (f w), w).
Definition modify (f : World → World) : Js unit := λ w, (Normal tt, f w).

Definition emit (e : Effect) : Js unit :=
  modify (λ w, {| storage := storage w; chatStore := chatStore w;
                  chatId := chatId w; description := description w;
                  chatMetadata := chatMetadata w;
                  archivedMessages := archivedMessages w;
                  initialMessages := initialMessages w;
                  ready := ready w; urlId := urlId w;
                  effects := effects w ++ [e] |}).

Definition with_storage (s : Storage) (w : World) : World :=
  {| storage := s; chatStore := chatStore w;
     chatId := chatId w; description := description w;
     chatMetadata := chatMetadata w;
     archivedMessages := archivedMessages w;
     initialMessages := initialMessages w;
     ready := ready w; urlId := urlId w; effects := effects w |}.

Definition with_chatStore (c : ChatState.t) (w : World) : World :=
  {| storage := storage w; chatStore := c;
     chatId := chatId w; description := description w;
     chatMetadata := chatMetadata w;
     archivedMessages := archivedMessages w;
     initialMessages := initialMessages w;
     ready := ready w; urlId := urlId w; effects := effects w |}.

Definition with_chatId (v : option string) (w : World) : World :=
  {| storage := storage w; chatStore := chatStore w;
     chatId := v; description := description w;
     chatMetadata := chatMetadata w;
     archivedMessages := archivedMessages w;
     initialMessages := initialMessages w;
     ready := ready w; urlId := urlId w; effects := effects w |}.

Definition with_description (v : option string) (w : World) : World :=
  {| storage := storage w; chatStore := chatStore w;
     chatId := chatId w; description := v;
     chatMetadata := chatMetadata w;
     archivedMessages := archivedMessages w;
     initialMessages := initialMessages w;
     ready := ready w; urlId := urlId w; effects := effects w |}.

Definition with_chatMetadata (v : option Metadata) (w : World) : World :=
  {| storage := storage w; chatStore := chatStore w;
     chatId := chatId w; description := description w;
     chatMetadata := v;
     archivedMessages := archivedMessages w;
     initialMessages := initialMessages w;
     ready := ready w; urlId := urlId w; effects := effects w |}.

Definition with_archivedMessages (v : list Message.t) (w : World) : World :=
  {| storage := storage w; chatStore := chatStore w;
     chatId := chatId w; description := description w;
     chatMetadata := chatMetadata w;
     archivedMessages := v;
     initialMessages := initialMessages w;
     ready := ready w; urlId := urlId w; effects := effects w |}.

Definition with_initialMessages (v : list Message.t) (w : World) : World :=
  {| storage := storage w; chatStore := chatStore w;
     chatId := chatId w; description := description w;
     chatMetadata := chatMetadata w;
     archivedMessages := archivedMessages w;
     initialMessages := v;
     ready := ready w; urlId := urlId w; effects := effects w |}.

Definition with_ready (v : bool) (w : World) : World :=
  {| storage := storage w; chatStore := chatStore w;
     chatId := chatId w; description := description w;
     chatMetadata := chatMetadata w;
     archivedMessages := archivedMessages w;
     initialMessages := initialMessages w;
     ready := v; urlId := urlId w; effects := effects w |}.

Definition with_urlId (v : option string) (w : World) : World :=
  {| storage := storage w; chatStore := chatStore w;
     chatId := chatId w; description := description w;
     chatMetadata := chatMetadata w;
     archivedMessages := archivedMessages w;
     initialMessages := initialMessages w;
     ready := ready w; urlId := v; effects := effects w |}.

(** *** [localStorage.ts] *)

(** [localStorage.setItem(CHAT_STORAGE_KEY, JSON.stringify(chats))]. *)
Definition setItem_chats (l : list Chat) : Js unit := λ w,
  let s := storage w in
  if acceptsChats s l
  then (Normal tt,
        with_storage {| usable := usable s; acceptsChats := acceptsChats s;
                        acceptsCurrent := acceptsCurrent s;
                        chats := Parsed l; currentChat := currentChat s |} w)
  else (Throw "QuotaExceededError", w).

(** [localStorage.setItem(CURRENT_CHAT_KEY, id)]. *)
Definition setItem_current (id : string) : Js unit := λ w,
  let s := storage w in
  if acceptsCurrent s id
  then (Normal tt,
        with_storage {| usable := usable s; acceptsChats := acceptsChats s;
                        acceptsCurrent := acceptsCurrent s;
                        chats := chats s; currentChat := Some id |} w)
  else (Throw "QuotaExceededError", w).

(** [localStorage.removeItem(CHAT_STORAGE_KEY)] and
    [localStorage.removeItem(CURRENT_CHAT_KEY)]. *)
Definition removeItem_chats : Js unit :=
  modify (λ w, let s := storage w in
    with_storage {| usable := usable s; acceptsChats := acceptsChats s;
                    acceptsCurrent := acceptsCurrent s;
                    chats := Absent; currentChat := currentChat s |} w).

Definition removeItem_current : Js unit :=
  modify (λ w, let s := storage w in
    with_storage {| usable := usable s; acceptsChats := acceptsChats s;
                    acceptsCurrent := acceptsCurrent s;
                    chats := chats s; currentChat := None |} w).

(** Whether the probe write goes through in this state of the storage. *)
Definition available (s : Storage) : bool :=
  usable s (chats s) (currentChat s).

(** The probe sets the key ['test'] and removes it again, or fails to set
    it: either way the two keys of the chats are as before. *)
Definition isLocalStorageAvailable : Js bool :=
  get (λ w, available (storage w)).

(** [stored ? JSON.parse(stored) : []]. *)
Definition getAllChatsFromLocalStorage : Js (list Chat) :=
  available ← isLocalStorageAvailable;
  if negb available then
    emit (ConsoleWarn "LocalStorage is not available");;
    mret []
  else
    try_catch
      (stored ← get (λ w, chats (storage w));
       match stored with
       | Absent => mret []
       | Unparsable => throw "SyntaxError"
       | Parsed chats => mret chats
       end)
      (λ error,
         emit (ConsoleError "Error reading chats from LocalStorage:");;
         mret []).

(** [chats[existingIndex] = chat] is the list update: the index comes from
    [findIndex] and is within the array ([upsert_cases] below). *)
Definition saveChatToLocalStorage (chat : Chat) : Js unit :=
  available ← isLocalStorageAvailable;
  if negb available then
    emit (ConsoleWarn "LocalStorage is not available")
  else
    try_catch
      (chats ← getAllChatsFromLocalStorage;
       let existingIndex :=
         JS.findIndex (λ c, String.eqb (LocalStorageChat.id c)
                                       (LocalStorageChat.id chat)) chats in
       let chats :=
         if (0 <=? existingIndex)%Z
         then <[Z.to_nat existingIndex := chat]> chats
         else chats ++ [chat] in
       setItem_chats chats)
      (λ error, emit (ConsoleError "Error saving chat to LocalStorage:")).

Definition deleteChatFromLocalStorage (id : string) : Js unit :=
  available ← isLocalStorageAvailable;
  if negb available then
    emit (ConsoleWarn "LocalStorage is not available")
  else
    try_catch
      (chats ← getAllChatsFromLocalStorage;
       let filteredChats :=
         List.filter (λ c, negb (String.eqb (LocalStorageChat.id c) id)) chats in
       setItem_chats filteredChats)
      (λ error, emit (ConsoleError "Error deleting chat from LocalStorage:")).

Definition getChatFromLocalStorage (id : string) : Js (option Chat) :=
  available ← isLocalStorageAvailable;
  if negb available then mret None
  else
    chats ← getAllChatsFromLocalStorage;
    mret (JS.find (λ c, String.eqb (LocalStorageChat.id c) id) chats).

Definition setCurrentChatId (id : option string) : Js unit :=
  available ← isLocalStorageAvailable;
  if negb available then mret tt
  else
    try_catch
      (match id with
       | Some s => if JS.truthy id then setItem_current s else removeItem_current
       | None => removeItem_current
       end)
      (λ error, emit (ConsoleError "Error setting current chat ID:")).

Definition getCurrentChatId : Js (option string) :=
  available ← isLocalStorageAvailable;
  if negb available then mret None
  else get (λ w, currentChat (storage w)).

Definition clearLocalStorageChats : Js unit :=
  available ← isLocalStorageAvailable;
  if negb available then mret tt
  else removeItem_chats;; removeItem_current.

Definition convertToLocalStorageChat (item : ChatHistoryItem.t Metadata) : Chat :=
  {| LocalStorageChat.id := ChatHistoryItem.id item;
     LocalStorageChat.urlId := ChatHistoryItem.urlId item;
     LocalStorageChat.description := ChatHistoryItem.description item;
     LocalStorageChat.messages := ChatHistoryItem.messages item;
     LocalStorageChat.timestamp := ChatHistoryItem.timestamp item;
     LocalStorageChat.metadata := ChatHistoryItem.metadata item |}.

Definition convertToChatHistoryItem (item : Chat) : ChatHistoryItem.t Metadata :=
  {| ChatHistoryItem.id := LocalStorageChat.id item;
     ChatHistoryItem.urlId := LocalStorageChat.urlId item;
     ChatHistoryItem.description := LocalStorageChat.description item;
     ChatHistoryItem.messages := LocalStorageChat.messages item;
     ChatHistoryItem.timestamp := LocalStorageChat.timestamp item;
     ChatHistoryItem.metadata := LocalStorageChat.metadata item |}.

(** *** [stores/chat.ts] *)

Definition setCurrentChat (id : option string) : Js unit :=
  modify (λ w, let c := chatStore w in
    with_chatStore {| ChatState.started := ChatState.started c;
                      ChatState.aborted := ChatState.aborted c;
                      ChatState.showChat := ChatState.showChat c;
                      ChatState.currentChatId := id;
                      ChatState.messages := ChatState.messages c |} w);;
  setCurrentChatId id.

Definition initializeChatStore : Js unit :=
  currentChatId ← getCurrentChatId;
  match currentChatId with
  | Some id =>
      if negb (JS.truthy currentChatId) then mret tt
      else
        modify (λ w, let c := chatStore w in
          with_chatStore {| ChatState.started := ChatState.started c;
                            ChatState.aborted := ChatState.aborted c;
                            ChatState.showChat := ChatState.showChat c;
                            ChatState.currentChatId := currentChatId;
                            ChatState.messages := ChatState.messages c |} w);;
        chats ← getAllChatsFromLocalStorage;
        let currentChat :=
          JS.find (λ chat, String.eqb (LocalStorageChat.id chat) id) chats in
        match currentChat with
        | Some chat =>
            modify (λ w, let c := chatStore w in
              with_chatStore
                {| ChatState.started := ChatState.started c;
                   ChatState.aborted := ChatState.aborted c;
                   ChatState.showChat := ChatState.showChat c;
                   ChatState.currentChatId := ChatState.currentChatId c;
                   ChatState.messages := LocalStorageChat.messages chat |} w)
        | None => mret tt
        end
  | None => mret tt
  end.

(** [isoNow] is what [new Date().toISOString()] answers. *)
Definition saveMessagesToLocalStorage (isoNow : string)
    (messages : list Message.t) (chatId : option string) : Js unit :=
  store ← get chatStore;
  let currentChatId := JS.or_else chatId (ChatState.currentChatId store) in
  match currentChatId with
  | Some id =>
      if negb (JS.truthy currentChatId) then mret tt
      else
        let chat : Chat :=
          {| LocalStorageChat.id := id;
             LocalStorageChat.urlId := None;
             LocalStorageChat.description := None;
             LocalStorageChat.messages := messages;
             LocalStorageChat.timestamp := isoNow;
             LocalStorageChat.metadata := None |} in
        saveChatToLocalStorage chat
  | None => mret tt
  end.

Definition getCurrentChatMessages : Js (list Message.t) :=
  store ← get chatStore;
  let currentChatId := ChatState.currentChatId store in
  match currentChatId with
  | Some id =>
      if negb (JS.truthy currentChatId) then mret []
      else
        chats ← getAllChatsFromLocalStorage;
        let currentChat :=
          JS.find (λ chat, String.eqb (LocalStorageChat.id chat) id) chats in
        mret (default [] (LocalStorageChat.messages <$> currentChat))
  | None => mret []
  end.

(** *** [useChatHistory.ts] *)

(** What the hook reads from its surroundings: the primary store ([None]
    when persistence is disabled), the [rewindTo] search parameter, the
    loader's [mixedId], the workbench store, and what [generateId()],
    [createCommandActionsString(await detectProjectCommands(files))],
    [Date.now().toString()] and [new Date().toISOString()] answer.
    [pathname s] is what the browser's [URL] holds as its pathname after
    the assignment [url.pathname = s], which percent-encodes and
    normalises [s]. *)
Record Env := {
  db : option Db;
  rewindTo : option string;
  mixedId : string;
  firstArtifact : option Artifact.t;
  workbenchFiles : FileMap;
  generatedId : string;
  commandActionsString : list (string * string) → string;
  dateNow : string;
  isoNow : string;
  pathname : string → string
}.

Definition setArchivedMessages (v : list Message.t) : Js unit :=
  modify (with_archivedMessages v).
Definition setInitialMessages (v : list Message.t) : Js unit :=
  modify (with_initialMessages v).
Definition setReady (v : bool) : Js unit := modify (with_ready v).
Definition setUrlId (v : option string) : Js unit := modify (with_urlId v).

(** [snapshot || { chatIndex: '', files: {} }]. *)
Definition validSnapshot (snapshot : option Snapshot.t) : Snapshot.t :=
  default {| Snapshot.chatIndex := EmptyString;
             Snapshot.files := [];
             Snapshot.summary := None |} snapshot.

Definition endingIdx (messages : list Message.t) (rewindId : option string) : Z :=
  if JS.truthy rewindId
  then (JS.findIndex (λ m, JS.eqq (Message.id m) rewindId) messages + 1)%Z
  else Z.of_nat (length messages).

Definition snapshotIndex (messages : list Message.t)
    (snapshot : option Snapshot.t) : Z :=
  JS.findIndex
    (λ m, String.eqb (Message.id m) (Snapshot.chatIndex (validSnapshot snapshot)))
    messages.

(** [startingIdx] after the two conditionals.  The second one reads
    [messages[snapshotIndex].id] only when [snapshotIndex > 0], where the
    entry exists ([snapshotIndex_defined] below). *)
Definition startingIdx (messages : list Message.t)
    (snapshot : option Snapshot.t) (rewindId : option string) : Z :=
  let endingIdx := endingIdx messages rewindId in
  let snapshotIndex := snapshotIndex messages snapshot in
  let startingIdx :=
    if (0 <=? snapshotIndex)%Z && (snapshotIndex <? endingIdx)%Z
    then snapshotIndex else (-1)%Z in
  if (0 <? snapshotIndex)%Z &&
     match JS.at_ snapshotIndex messages with
     | Some m => JS.eqq (Message.id m) rewindId
     | None => false
     end
  then (-1)%Z else startingIdx.

Definition nl : string := String (Ascii.ascii_of_nat 10) EmptyString.
Definition dq : string := String (Ascii.ascii_of_nat 34) EmptyString.
Definition spaces (n : nat) : string :=
  String.concat EmptyString (replicate n " ").

(** The files handed to [detectProjectCommands], as [(path, content)]. *)
Definition snapshotFiles (files : FileMap) : list (string * string) :=
  omap (λ entry, match entry.2 with
                 | Some (File content _) => Some (entry.1, content)
                 | _ => None
                 end) files.

Definition boltAction (entry : string * option Dirent) : string :=
  match entry.2 with
  | Some (File content _) =>
      nl +:+ spaces 16 +:+ "<boltAction type=" +:+ dq +:+ "file" +:+ dq
         +:+ " filePath=" +:+ dq +:+ entry.1 +:+ dq +:+ ">" +:+ nl
         +:+ content +:+ nl
         +:+ spaces 16 +:+ "</boltAction>" +:+ nl +:+ spaces 16
  | _ => EmptyString
  end.

Definition restoredContent (files : FileMap) (commandActions : string) : string :=
  "Bolt Restored your chat from a snapshot. You can revert this message to load the full chat history."
    +:+ nl +:+ spaces 12
    +:+ "<boltArtifact id=" +:+ dq +:+ "restored-project-setup" +:+ dq
    +:+ " title=" +:+ dq +:+ "Restored Project & Setup" +:+ dq
    +:+ " type=" +:+ dq +:+ "bundled" +:+ dq +:+ ">"
    +:+ nl +:+ spaces 12
    +:+ String.concat nl (boltAction <$> files)
    +:+ nl +:+ spaces 12
    +:+ commandActions +:+ " "
    +:+ nl +:+ spaces 12 +:+ "</boltArtifact>"
    +:+ nl +:+ spaces 12.

(** The two messages put in front of the window when a snapshot is
    restored; [anchorId] is [storedMessages.messages[snapshotIndex].id]. *)
Definition restoreMessages (env : Env) (snapshot : option Snapshot.t)
    (anchorId : string) : list Message.t :=
  let validSnapshot := validSnapshot snapshot in
  let summary := Snapshot.summary validSnapshot in
  let files := snapshotFiles (Snapshot.files validSnapshot) in
  [ {| Message.id := generatedId env;
       Message.role := user;
       Message.content := "Restore project from snapshot";
       Message.annotations := Some [JString "no-store"; JString "hidden"] |};
    {| Message.id := anchorId;
       Message.role := assistant;
       Message.content :=
         restoredContent (Snapshot.files validSnapshot)
                         (commandActionsString env files);
       Message.annotations :=
         Some (JString "no-store" ::
               match summary with
               | Some s =>
                   if JS.truthy summary
                   then [JObject [("chatId", anchorId);
                                  ("type", "chatSummary");
                                  ("summary", s)]]
                   else []
               | None => []
               end) |} ].

(** [restoreSnapshot(mixedId)]: the call passes no snapshot. *)
Definition restoreSnapshot (id : string) : Js unit :=
  emit (RestoreSnapshot id).

Definition processStoredMessages (env : Env)
    (storedMessages : ChatHistoryItem.t Metadata)
    (snapshot : option Snapshot.t) : Js unit :=
  let messages := ChatHistoryItem.messages storedMessages in
  let rewindId := rewindTo env in
  let endingIdx := endingIdx messages rewindId in
  let snapshotIndex := snapshotIndex messages snapshot in
  let startingIdx := startingIdx messages snapshot rewindId in
  let filteredMessages := JS.slice (startingIdx + 1) endingIdx messages in
  let archivedMessages :=
    if (0 <=? startingIdx)%Z
    then JS.slice 0 (startingIdx + 1) messages else [] in
  setArchivedMessages archivedMessages;;
  filteredMessages ←
    (if (0 <? startingIdx)%Z then
       anchor ← defined (JS.at_ snapshotIndex messages);
       let filteredMessages :=
         restoreMessages env snapshot (Message.id anchor) ++ filteredMessages in
       restoreSnapshot (mixedId env);;
       mret filteredMessages
     else mret filteredMessages);
  setInitialMessages filteredMessages;;
  setUrlId (ChatHistoryItem.urlId storedMessages);;
  modify (with_description (ChatHistoryItem.description storedMessages));;
  modify (with_chatId (Some (ChatHistoryItem.id storedMessages)));;
  modify (with_chatMetadata (ChatHistoryItem.metadata storedMessages));;
  setReady true.

Definition processLocalStorageChat (localStorageChat : Chat) : Js unit :=
  let id := LocalStorageChat.id localStorageChat in
  setInitialMessages (LocalStorageChat.messages localStorageChat);;
  setUrlId (JS.or_else (LocalStorageChat.urlId localStorageChat) (Some id));;
  modify (with_description
            (JS.or_else (LocalStorageChat.description localStorageChat)
                        (Some ("Chat " +:+ id))));;
  modify (with_chatId (Some id));;
  modify (with_chatMetadata (LocalStorageChat.metadata localStorageChat));;
  setReady true.

(** [takeSnapshot] is started without [await]; the model runs it to its
    end at the call.  Its third argument is not used. *)
Definition takeSnapshot (env : Env) (chatIdx : string) (files : FileMap)
    (_chatId : option string) (chatSummary : option string) : Js unit :=
  id ← get chatId;
  match id, db env with
  | Some i, Some d =>
      if negb (JS.truthy id) then mret tt
      else
        let snapshot := {| Snapshot.chatIndex := chatIdx;
                           Snapshot.files := files;
                           Snapshot.summary := chatSummary |} in
        try_catch
          (emit (SetSnapshot i snapshot);;
           await (setSnapshot d i snapshot))
          (λ error,
             emit (ConsoleError "Failed to save snapshot:");;
             emit (ToastError "Failed to save chat snapshot."))
  | _, _ => mret tt
  end.

(** [navigateChat]: the pathname of the URL given to [replaceState] is
    what the assignment to [url.pathname] makes of [/chat/nextId]. *)
Definition navigateChat (env : Env) (nextId : string) : Js unit :=
  emit (ReplaceState (pathname env ("/chat/" +:+ nextId))).

(** [annotations.includes(tag)]. *)
Definition includes (tag : string) (annotations : list JSONValue) : bool :=
  existsb (λ a, match a with
                | JString s => String.eqb s tag
                | JObject _ => false
                end) annotations.

(** [m.annotations?.includes('no-store')], [undefined] being falsy. *)
Definition noStore (m : Message.t) : bool :=
  match Message.annotations m with
  | Some annotations => includes "no-store" annotations
  | None => false
  end.

(** [annotation[key]] on an object annotation. *)
Definition property (key : string) (entries : list (string * string)) : option string :=
  snd <$> JS.find (λ kv, String.eqb kv.1 key) entries.

(** The summary carried by the last message, when it is an assistant
    message with a [chatSummary] annotation. *)
Definition chatSummaryOf (lastMessage : Message.t) : option string :=
  match Message.role lastMessage with
  | assistant =>
      let filteredAnnotations :=
        match Message.annotations lastMessage with
        | Some annotations =>
            List.filter (λ a, match a with
                              | JObject entries =>
                                  existsb (λ kv, String.eqb kv.1 "type") entries
                              | JString _ => false
                              end) annotations
        | None => []
        end in
      match JS.find (λ a, match a with
                          | JObject entries =>
                              JS.eqq "chatSummary" (property "type" entries)
                          | JString _ => false
                          end) filteredAnnotations with
      | Some (JObject entries) => property "summary" entries
      | _ => None
      end
  | user => None
  end.

Definition storeMessageHistory (env : Env) (messages : list Message.t) : Js unit :=
  if (Z.of_nat (length messages) =? 0)%Z then mret tt
  else
    let firstArtifact := firstArtifact env in
    let messages := List.filter (λ m, negb (noStore m)) messages in
    (* the values of this render *)
    urlId ← get urlId;
    initialMessages ← get initialMessages;
    archivedMessages ← get archivedMessages;
    _urlId ←
      (match firstArtifact, db env with
       | Some artifact, Some d =>
           if negb (JS.truthy urlId) && JS.truthy (Some (Artifact.id artifact))
           then
             urlId ← await (getUrlId d (Artifact.id artifact));
             navigateChat env urlId;;
             setUrlId (Some urlId);;
             mret (Some urlId)
           else mret urlId
       | _, _ => mret urlId
       end);
    lastMessage ← defined (JS.lastItem messages);
    let chatSummary := chatSummaryOf lastMessage in
    takeSnapshot env (Message.id lastMessage) (workbenchFiles env)
                 _urlId chatSummary;;
    currentDescription ← get description;
    (match firstArtifact with
     | Some artifact =>
         if negb (JS.truthy currentDescription)
            && JS.truthy (Some (Artifact.title artifact))
         then modify (with_description (Some (Artifact.title artifact)))
         else mret tt
     | None => mret tt
     end);;
    currentChatId ← get chatId;
    (if (Z.of_nat (length initialMessages) =? 0)%Z
        && negb (JS.truthy currentChatId)
     then
       nextId ← (match db env with
                 | Some d => await (getNextId d)
                 | None => mret (dateNow env)
                 end);
       modify (with_chatId (Some nextId));;
       setCurrentChatId (Some nextId);;
       (match db env with
        | Some _ =>
            if negb (JS.truthy urlId) then navigateChat env nextId else mret tt
        | None => mret tt
        end)
     else mret tt);;
    finalChatId ← get chatId;
    match finalChatId with
    | Some id =>
        if negb (JS.truthy finalChatId) then
          emit (ConsoleError "Cannot save messages, chat ID is not set.");;
          emit (ToastError "Failed to save chat messages: Chat ID missing.")
        else
          (match db env with
           | Some d =>
               try_catch
                 (currentDescription ← get description;
                  currentMetadata ← get chatMetadata;
                  emit (SetMessages id (archivedMessages ++ messages) urlId
                          currentDescription currentMetadata);;
                  await (setMessages d id (archivedMessages ++ messages) urlId
                           currentDescription currentMetadata))
                 (λ error,
                    emit (ConsoleError "Error saving to IndexedDB:");;
                    emit (ToastError
                      "Failed to save to database, using LocalStorage fallback"))
           | None => mret tt
           end);;
          try_catch
            (currentDescription ← get description;
             currentMetadata ← get chatMetadata;
             let localStorageChat : Chat :=
               {| LocalStorageChat.id := id;
                  LocalStorageChat.urlId := JS.or_else _urlId (Some id);
                  LocalStorageChat.description :=
                    JS.or_else currentDescription (Some ("Chat " +:+ id));
                  LocalStorageChat.messages := archivedMessages ++ messages;
                  LocalStorageChat.timestamp := isoNow env;
                  LocalStorageChat.metadata := currentMetadata |} in
             saveChatToLocalStorage localStorageChat)
            (λ localStorageError,
               emit (ConsoleError "Error saving to LocalStorage:"))
    | None =>
        emit (ConsoleError "Cannot save messages, chat ID is not set.");;
        emit (ToastError "Failed to save chat messages: Chat ID missing.")
    end.

(** *** The rest of the hook

    [updateChatMestaData] writes through the primary store only. *)
Definition updateChatMestaData (env : Env) (metadata : Metadata) : Js unit :=
  id ← get chatId;
  match db env, id with
  | Some d, Some i =>
      if negb (JS.truthy id) then mret tt
      else
        try_catch
          (initialMessages ← get initialMessages;
           urlId ← get urlId;
           currentDescription ← get description;
           emit (SetMessages i initialMessages urlId currentDescription
                   (Some metadata));;
           await (setMessages d i initialMessages urlId currentDescription
                    (Some metadata));;
           modify (with_chatMetadata (Some metadata)))
          (λ error,
             emit (ToastError "Failed to update chat metadata");;
             emit (ConsoleError error))
  | _, _ => mret tt
  end.

(** What the hook does to the page besides the effects above: the router's
    [navigate], [logStore.logError], [toast.success] and [console.log].
    They are kept in a list of their own, oldest first. *)
Inductive PageEvent :=
| Navigate (to : string) (replace : bool)
| LogError (msg : string)
| ToastSuccess (msg : string)
| ConsoleLog (msg : string).

Record Page := {
  world : World;
  events : list PageEvent
}.

(** The calls of the primary store ([./db]) that [Db] above does not
    list: what they answer. *)
Record DbCalls := {
  getMessages : string → Completion (option (ChatHistoryItem.t Metadata));
  getSnapshot : string → Completion (option Snapshot.t);
  duplicateChat : string → Completion string
}.

Definition Ui (A : Type) : Type := Page → Completion A * Page.

#[global] Instance ui_ret : MRet Ui := λ A a p, (Normal a, p).
#[global] Instance ui_bind : MBind Ui := λ A B f m p,
  match m p with
  | (Normal a, p') => f a p'
  | (Throw e, p') => (Throw e, p')
  end.

(** A computation on the world, run within the page. *)
Definition lift {A} (m : Js A) : Ui A := λ p,
  match m (world p) with
  | (c, w) => (c, {| world := w; events := events p |})
  end.

Definition signal (e : PageEvent) : Ui unit := λ p,
  (Normal tt, {| world := world p; events := events p ++ [e] |}).

(** [try { body } catch (error) { handler }], the value telling whether the
    function goes on after the statement. *)
Definition ui_try_catch {A} (body : Ui A) (handler : string → Ui A) : Ui A :=
  λ p, match body p with
       | (Normal a, p') => (Normal a, p')
       | (Throw e, p') => handler e p'
       end.

(** [loadChat].  A missing [mixedId] is the empty string, as falsy as
    [undefined].  Each [try] block answers whether it has returned from
    the function. *)
Definition loadChat (env : Env) (calls : DbCalls) : Ui unit :=
  let mixedId := mixedId env in
  if negb (JS.truthy (Some mixedId)) then lift (setReady true)
  else
    returned ←
      (match db env with
       | Some _ =>
           ui_try_catch
             (storedMessages ← lift (await (getMessages calls mixedId));
              snapshot ← lift (await (getSnapshot calls mixedId));
              match storedMessages with
              | Some stored =>
                  if (0 <? Z.of_nat (length (ChatHistoryItem.messages stored)))%Z
                  then lift (processStoredMessages env stored snapshot);;
                       mret true
                  else mret false
              | None => mret false
              end)
             (λ error,
                lift (emit (ConsoleError "Error loading from IndexedDB:"));;
                signal (LogError "Failed to load from IndexedDB");;
                mret false)
       | None => mret false
       end);
    if returned : bool then mret tt
    else
      returned ←
        ui_try_catch
          (localStorageChat ← lift (getChatFromLocalStorage mixedId);
           match localStorageChat with
           | Some chat =>
               if (0 <? Z.of_nat (length (LocalStorageChat.messages chat)))%Z
               then lift (processLocalStorageChat chat);;
                    mret true
               else mret false
           | None => mret false
           end)
          (λ error,
             lift (emit (ConsoleError "Error loading from LocalStorage:"));;
             mret false);
      if returned : bool then mret tt
      else
        signal (Navigate "/" true);;
        lift (setReady true).

(** [duplicateCurrentChat]. *)
Definition duplicateCurrentChat (env : Env) (calls : DbCalls)
    (listItemId : string) : Ui unit :=
  let mixedId := mixedId env in
  let target := if JS.truthy (Some mixedId) then mixedId else listItemId in
  match db env with
  | None =>
      if negb (JS.truthy (Some mixedId)) && negb (JS.truthy (Some listItemId))
      then mret tt
      else
        ui_try_catch
          (chats ← lift getAllChatsFromLocalStorage;
           let chatToDuplicate :=
             JS.find (λ chat, String.eqb (LocalStorageChat.id chat) target) chats in
           match chatToDuplicate with
           | None => lift (emit (ToastError "Chat not found"))
           | Some chat =>
               let newId := dateNow env in
               let duplicatedChat : Chat :=
                 {| LocalStorageChat.id := newId;
                    LocalStorageChat.urlId := LocalStorageChat.urlId chat;
                    LocalStorageChat.description :=
                      Some (match LocalStorageChat.description chat with
                            | Some d => if JS.truthy (Some d) then d else "Chat"
                            | None => "Chat"
                            end +:+ " (copy)");
                    LocalStorageChat.messages := LocalStorageChat.messages chat;
                    LocalStorageChat.timestamp := isoNow env;
                    LocalStorageChat.metadata := LocalStorageChat.metadata chat |} in
               lift (saveChatToLocalStorage duplicatedChat);;
               signal (Navigate ("/chat/" +:+ newId) false);;
               signal (ToastSuccess "Chat duplicated successfully")
           end)
          (λ error,
             lift (emit (ToastError "Failed to duplicate chat"));;
             signal (ConsoleLog error))
  | Some _ =>
      ui_try_catch
        (newId ← lift (await (duplicateChat calls target));
         signal (Navigate ("/chat/" +:+ newId) false);;
         signal (ToastSuccess "Chat duplicated successfully"))
        (λ error,
           lift (emit (ToastError "Failed to duplicate chat"));;
           signal (ConsoleLog error))
  end.

(** *** Notions used to state the properties *)

(** The synthetic messages in front of the window: the restore pair when
    [startingIdx > 0], none otherwise. *)
Definition prepended (env : Env) (messages : list Message.t)
    (snapshot : option Snapshot.t) : list Message.t :=
  if (0 <? startingIdx messages snapshot (rewindTo env))%Z
  then restoreMessages env snapshot (Snapshot.chatIndex (validSnapshot snapshot))
  else [].

(** What [getAllChatsFromLocalStorage] reads from a usable store. *)
Definition stored (w : World) : list Chat :=
  match chats (storage w) with
  | Parsed chats => chats
  | Absent | Unparsable => []
  end.

(** What [getAllChatsFromLocalStorage] logs on a usable store: the error
    of [JSON.parse] on a value it refuses. *)
Definition readError (w : World) : list Effect :=
  match chats (storage w) with
  | Unparsable => [ConsoleError "Error reading chats from LocalStorage:"]
  | Absent | Parsed _ => []
  end.

(** The list [saveChatToLocalStorage] writes back. *)
Definition upsert (chat : Chat) (chats : list Chat) : list Chat :=
  let existingIndex :=
    JS.findIndex (λ c, String.eqb (LocalStorageChat.id c)
                                  (LocalStorageChat.id chat)) chats in
  if (0 <=? existingIndex)%Z
  then <[Z.to_nat existingIndex := chat]> chats
  else chats ++ [chat].

(** The world after [getAllChatsFromLocalStorage] on a usable store. *)
Definition afterRead (w : World) : World :=
  match chats (storage w) with
  | Unparsable =>
      (emit (ConsoleError "Error reading chats from LocalStorage:") w).2
  | Absent | Parsed _ => w
  end.

(** The save went through: it logged neither the warning of an unusable
    store nor the error of a refused write or of an unparsable value. *)
Definition saved (chat : Chat) (w : World) : Prop :=
  effects (saveChatToLocalStorage chat w).2 = effects w.

(** The number of entries of [chats] with id [X]. *)
Definition entries (X : string) (chats : list Chat) : nat :=
  length (List.filter (λ c, String.eqb (LocalStorageChat.id c) X) chats).

(** The deletion went through, in the sense of [saved]. *)
Definition deleted (id : string) (w : World) : Prop :=
  effects (deleteChatFromLocalStorage id w).2 = effects w.

(** A store that is usable whatever it holds and accepts every write of
    the chat list. *)
Definition roomy (w : World) : Prop :=
  (∀ c p, usable (storage w) c p = true) ∧
  ∀ l, acceptsChats (storage w) l = true.

(** The number of [setSnapshot] calls among some effects. *)
Definition snapshots (es : list Effect) : nat :=
  length (List.filter (λ e, match e with SetSnapshot _ _ => true | _ => false end) es).

(** The world with other effects. *)
Definition with_effects (es : list Effect) (w : World) : World :=
  {| storage := storage w; chatStore := chatStore w;
     chatId := chatId w; description := description w;
     chatMetadata := chatMetadata w;
     archivedMessages := archivedMessages w;
     initialMessages := initialMessages w;
     ready := ready w; urlId := urlId w; effects := es |}.

(** The primary store answers [loadChat] with a chat that has messages. *)
Definition primaryHit (env : Env) (calls : DbCalls)
    (stored : ChatHistoryItem.t Metadata) (snapshot : option Snapshot.t) : Prop :=
  db env ≠ None ∧
  getMessages calls (mixedId env) = Normal (Some stored) ∧
  getSnapshot calls (mixedId env) = Normal snapshot ∧
  ChatHistoryItem.messages stored ≠ [].

(** The state of the chat store when the module is loaded. *)
Definition initialChatState : ChatState.t :=
  {| ChatState.started := false;
     ChatState.aborted := false;
     ChatState.showChat := true;
     ChatState.currentChatId := None;
     ChatState.messages := [] |}.

End Persistence.

Arguments Item : clear implicits.
Arguments Storage : clear implicits.
Arguments Effect : clear implicits.
Arguments Db : clear implicits.
Arguments World : clear implicits.
Arguments Env : clear implicits.
Arguments Js : clear implicits.
Arguments Page : clear implicits.
Arguments DbCalls : clear implicits.
Arguments Ui : clear implicits.

(** ** Sample data

    A chat of four messages with ids ["0"] to ["3"], a snapshot taken at
    message ["1"], a usable fallback store, and no primary store.
    The metadata are of type [unit]. *)

Module Example.

Definition message (id : string) : Message.t :=
  {| Message.id := id; Message.role := user;
     Message.content := "hello"; Message.annotations := None |}.

Definition messages : list Message.t :=
  [message "0"; message "1"; message "2"; message "3"].

(** A message that is not to be stored. *)
Definition hidden : Message.t :=
  {| Message.id := "h"; Message.role := user;
     Message.content := "hello";
     Message.annotations := Some [JString "no-store"] |}.

Definition snapshot : Snapshot.t :=
  {| Snapshot.chatIndex := "1";
     Snapshot.files := [("/home/project/a.txt", Some (File "text" false));
                        ("/home/project/src", Some Folder)];
     Snapshot.summary := Some "summary" |}.

(** A snapshot whose [chatIndex] is the id of no message. *)
Definition stale : Snapshot.t :=
  {| Snapshot.chatIndex := "9"; Snapshot.files := []; Snapshot.summary := None |}.

Definition item (messages : list Message.t) : ChatHistoryItem.t unit :=
  {| ChatHistoryItem.id := "7";
     ChatHistoryItem.urlId := None;
     ChatHistoryItem.description := Some "a chat";
     ChatHistoryItem.messages := messages;
     ChatHistoryItem.timestamp := "2024-01-01T00:00:00.000Z";
     ChatHistoryItem.metadata := None |}.

Definition chat (id : string) (messages : list Message.t) : LocalStorageChat.t unit :=
  {| LocalStorageChat.id := id;
     LocalStorageChat.urlId := None;
     LocalStorageChat.description := Some "a chat";
     LocalStorageChat.messages := messages;
     LocalStorageChat.timestamp := "2024-01-01T00:00:00.000Z";
     LocalStorageChat.metadata := Some tt |}.

(** The sample ids are plain, and on a plain path the assignment to
    [url.pathname] keeps the string as it is. *)
Definition env (rewindTo : option string) : Env unit :=
  {| db := None; rewindTo := rewindTo; mixedId := "7";
     firstArtifact := None; workbenchFiles := [];
     generatedId := "generated";
     commandActionsString := λ _, EmptyString;
     dateNow := "1704067200000";
     isoNow := "2024-01-01T00:00:00.000Z";
     pathname := λ s, s |}.

Definition world (chatId : option string) (initialMessages : list Message.t)
    (chats : option (list (LocalStorageChat.t unit))) : World unit :=
  {| storage := {| usable := λ _ _, true;
                   acceptsChats := λ _, true;
                   acceptsCurrent := λ _, true;
                   chats := from_option Parsed Absent chats;
                   currentChat := None |};
     chatStore := {| ChatState.started := false;
                     ChatState.aborted := false;
                     ChatState.showChat := true;
                     ChatState.currentChatId := None;
                     ChatState.messages := [] |};
     chatId := chatId; description := None; chatMetadata := None;
     archivedMessages := []; initialMessages := initialMessages;
     ready := false; urlId := None; effects := [] |}.

(** The same world with a store that cannot be used, whatever it holds. *)
Definition unusable (chats : option (list (LocalStorageChat.t unit))) : World unit :=
  {| storage := {| usable := λ _ _, false;
                   acceptsChats := λ _, true;
                   acceptsCurrent := λ _, true;
                   chats := from_option Parsed Absent chats;
                   currentChat := Some "5" |};
     chatStore := initialChatState;
     chatId := None; description := None; chatMetadata := None;
     archivedMessages := []; initialMessages := [];
     ready := false; urlId := None; effects := [] |}.

(** A primary store whose writes throw. *)
Definition failing : Db unit :=
  {| getUrlId := λ _, Normal "u1";
     getNextId := Normal "8";
     setMessages := λ _ _ _ _ _, Throw "TransactionInactiveError";
     setSnapshot := λ _ _, Throw "TransactionInactiveError" |}.

Definition artifact : Artifact.t :=
  {| Artifact.id := "artifact"; Artifact.title := "A project" |}.

(** The surroundings with the failing primary store and a first artifact. *)
Definition env_failing : Env unit :=
  {| db := Some failing; rewindTo := None; mixedId := "7";
     firstArtifact := Some artifact; workbenchFiles := [];
     generatedId := "generated";
     commandActionsString := λ _, EmptyString;
     dateNow := "1704067200000";
     isoNow := "2024-01-01T00:00:00.000Z";
     pathname := λ s, s |}.

(** A primary store that answers [loadChat] with the sample chat and
    snapshot, and one whose reads throw. *)
Definition answering : DbCalls unit :=
  {| getMessages := λ _, Normal (Some (item messages));
     getSnapshot := λ _, Normal (Some snapshot);
     duplicateChat := λ _, Normal "8" |}.

Definition throwing : DbCalls unit :=
  {| getMessages := λ _, Throw "InvalidStateError";
     getSnapshot := λ _, Throw "InvalidStateError";
     duplicateChat := λ _, Throw "InvalidStateError" |}.

(** A world whose store has room for one chat and then for nothing more,
    the probe write included, and one whose ['bolt-chats'] value does not
    parse. *)
Definition tight : World unit :=
  {| storage := {| usable := λ c _, match c with
                                    | Parsed (_ :: _) => false
                                    | _ => true
                                    end;
                   acceptsChats := λ l, bool_decide (length l ≤ 1)%nat;
                   acceptsCurrent := λ _, true;
                   chats := Absent;
                   currentChat := None |};
     chatStore := initialChatState;
     chatId := None; description := None; chatMetadata := None;
     archivedMessages := []; initialMessages := [];
     ready := false; urlId := None; effects := [] |}.

Definition unparsable : World unit :=
  {| storage := {| usable := λ _ _, true;
                   acceptsChats := λ _, true;
                   acceptsCurrent := λ _, true;
                   chats := Unparsable;
                   currentChat := None |};
     chatStore := initialChatState;
     chatId := None; description := None; chatMetadata := None;
     archivedMessages := []; initialMessages := [];
     ready := false; urlId := None; effects := [] |}.

Definition page (w : World unit) : Page unit :=
  Build_Page w [].

End Example.

(** ** Properties *)

Section Properties.
Context {Metadata : Type}.

#[local] Abbreviation Chat := (LocalStorageChat.t Metadata).

(** *** Arrays *)

Lemma findIndexFrom_range {A} (p : A → bool) (l : list A) (i : Z) :
  JS.findIndexFrom p l i = (-1)%Z ∨
  (i ≤ JS.findIndexFrom p l i < i + Z.of_nat (length l))%Z.
Proof.
  revert i. induction l as [|x l IH]; intros i; simpl.
  - by left.
  - destruct (p x).
    + right. lia.
    + destruct (IH (i + 1)%Z) as [->|H]; [by left|right; lia].
Qed.

Lemma findIndex_range {A} (p : A → bool) (l : list A) :
  (-1 ≤ JS.findIndex p l < Z.of_nat (length l))%Z.
Proof.
  unfold JS.findIndex. destruct (findIndexFrom_range p l 0) as [->|H]; lia.
Qed.

Lemma findIndexFrom_shift {A} (p : A → bool) (l : list A) (i : Z) :
  (0 ≤ i)%Z →
  JS.findIndexFrom p l i =
    if (JS.findIndexFrom p l 0 <? 0)%Z then (-1)%Z
    else (i + JS.findIndexFrom p l 0)%Z.
Proof.
  revert i. induction l as [|x l IH]; intros i Hi; simpl; [done|].
  destruct (p x); simpl.
  - f_equal; lia.
  - rewrite (IH (i + 1)%Z) by lia. rewrite (IH (0 + 1)%Z) by lia.
    rewrite Z.add_0_l.
    destruct (findIndexFrom_range p l 0) as [E|E].
    + by rewrite E.
    + destruct (Z.ltb_spec (JS.findIndexFrom p l 0) 0); [lia|].
      destruct (Z.ltb_spec (1 + JS.findIndexFrom p l 0) 0); lia.
Qed.

(** [findIndex] answers [-1] exactly when no entry passes the test. *)
Lemma findIndex_absent {A} (p : A → bool) (l : list A) :
  JS.findIndex p l = (-1)%Z ↔ ∀ x, x ∈ l → p x = false.
Proof.
  unfold JS.findIndex. induction l as [|x l IH]; simpl.
  - split; [intros _ y Hy; by apply elem_of_nil in Hy|done].
  - destruct (p x) eqn:Hp.
    + split; [done|]. intros H. specialize (H x (list_elem_of_here _ _)).
      congruence.
    + rewrite (findIndexFrom_shift p l (0 + 1)) by lia. rewrite Z.add_0_l.
      destruct (findIndexFrom_range p l 0) as [E|E].
      * rewrite E. simpl. split; [|done]. intros _ y Hy.
        apply elem_of_cons in Hy as [->|Hy]; [done|]. by apply IH.
      * destruct (Z.ltb_spec (JS.findIndexFrom p l 0) 0); [lia|].
        split; [lia|]. intros Hall. exfalso.
        assert (JS.findIndexFrom p l 0 = (-1)%Z) as E'; [|lia].
        apply IH. intros y Hy. apply Hall. by apply list_elem_of_further.
Qed.

(** When it answers [n >= 0], the entry at [n] passes the test and no
    earlier one does. *)
Lemma findIndex_found {A} (p : A → bool) (l : list A) :
  (0 ≤ JS.findIndex p l)%Z →
  ∃ x, l !! Z.to_nat (JS.findIndex p l) = Some x ∧ p x = true ∧
       ∀ j y, (j < Z.to_nat (JS.findIndex p l))%nat → l !! j = Some y → p y = false.
Proof.
  unfold JS.findIndex. induction l as [|x l IH]; simpl; [lia|].
  destruct (p x) eqn:Hp.
  - intros _. exists x. simpl. split_and!; [done..|]. intros; lia.
  - rewrite (findIndexFrom_shift p l (0 + 1)) by lia. rewrite Z.add_0_l.
    destruct (Z.ltb_spec (JS.findIndexFrom p l 0) 0); [lia|]. intros _.
    destruct IH as (y & Hy & Hpy & Hlt); [done|]. exists y.
    replace (Z.to_nat (1 + JS.findIndexFrom p l 0))
      with (S (Z.to_nat (JS.findIndexFrom p l 0))) by lia.
    split_and!; [done..|].
    intros [|j] z Hj Hz; simpl in Hz; [congruence|].
    apply (Hlt j); [lia|done].
Qed.

(** The first entry passing the test is the one [findIndex] answers. *)
Lemma findIndex_first {A} (p : A → bool) (l : list A) (n : nat) (x : A) :
  l !! n = Some x → p x = true →
  (∀ j y, (j < n)%nat → l !! j = Some y → p y = false) →
  JS.findIndex p l = Z.of_nat n.
Proof.
  intros Hn Hp Hfirst.
  destruct (findIndex_range p l) as [Hlo _].
  destruct (decide (JS.findIndex p l = (-1)%Z)) as [E|E].
  - apply findIndex_absent with (x := x) in E; [congruence|].
    by eapply list_elem_of_lookup_2.
  - destruct (findIndex_found p l) as (y & Hy & Hpy & Hlt); [lia|].
    destruct (lt_eq_lt_dec (Z.to_nat (JS.findIndex p l)) n) as [[Hc|Hc]|Hc].
    + rewrite (Hfirst _ _ Hc Hy) in Hpy. done.
    + lia.
    + rewrite (Hlt _ _ Hc Hn) in Hp. done.
Qed.

Lemma find_findIndex {A} (p : A → bool) (l : list A) :
  JS.find p l = JS.at_ (JS.findIndex p l) l.
Proof.
  unfold JS.findIndex, JS.at_. induction l as [|x l IH]; simpl; [done|].
  destruct (p x); [done|].
  rewrite (findIndexFrom_shift p l (0 + 1)) by lia. rewrite Z.add_0_l, IH.
  destruct (Z.ltb_spec (JS.findIndexFrom p l 0) 0) as [Hlt|Hge]; [done|].
  destruct (Z.ltb_spec (1 + JS.findIndexFrom p l 0) 0); [lia|].
  replace (Z.to_nat (1 + JS.findIndexFrom p l 0))
    with (S (Z.to_nat (JS.findIndexFrom p l 0))) by lia.
  done.
Qed.

(** [slice] between two indices in range is a [take] of a [drop]. *)
Lemma slice_in_range {A} (a b : Z) (l : list A) :
  (0 ≤ a)%Z → (a ≤ b)%Z → (b ≤ Z.of_nat (length l))%Z →
  JS.slice a b l = take (Z.to_nat (b - a)) (drop (Z.to_nat a) l).
Proof.
  intros Ha Hab Hb. unfold JS.slice, JS.relIndex.
  destruct (Z.ltb_spec a 0); [lia|]. destruct (Z.ltb_spec b 0); [lia|].
  do 2 f_equal; lia.
Qed.

Lemma slice_all {A} (l : list A) :
  JS.slice 0 (Z.of_nat (length l)) l = l.
Proof.
  rewrite slice_in_range by lia. simpl.
  rewrite Z.sub_0_r, Nat2Z.id. by rewrite firstn_all.
Qed.

Lemma slice_prefix {A} (b : Z) (l : list A) :
  (0 ≤ b)%Z → (b ≤ Z.of_nat (length l))%Z →
  JS.slice 0 b l = take (Z.to_nat b) l.
Proof.
  intros. rewrite slice_in_range by lia. simpl. by rewrite Z.sub_0_r.
Qed.

(** A prefix and the window that follows it make up the longer prefix. *)
Lemma slice_split {A} (a b : Z) (l : list A) :
  (0 ≤ a)%Z → (a ≤ b)%Z → (b ≤ Z.of_nat (length l))%Z →
  JS.slice 0 a l ++ JS.slice a b l = JS.slice 0 b l.
Proof.
  intros Ha Hab Hb.
  rewrite !slice_prefix by lia. rewrite slice_in_range by lia.
  rewrite <- (take_drop (Z.to_nat a) (take (Z.to_nat b) l)).
  rewrite take_take, Nat.min_l by lia.
  f_equal. rewrite take_drop_commute. do 2 f_equal. lia.
Qed.

(** *** The rewind resolver: the indices *)

Lemma not_among_ids (r : string) (messages : list Message.t) :
  r ∉ (Message.id <$> messages) →
  ∀ m, m ∈ messages → Message.id m ≠ r.
Proof.
  intros Hr m Hm E. apply Hr. rewrite <- E. by apply list_elem_of_fmap_2.
Qed.

Lemma endingIdx_range (messages : list Message.t) (rewindId : option string) :
  (0 ≤ endingIdx messages rewindId ≤ Z.of_nat (length messages))%Z.
Proof.
  unfold endingIdx. destruct (JS.truthy rewindId); [|lia].
  pose proof (findIndex_range (λ m, JS.eqq (Message.id m) rewindId) messages).
  lia.
Qed.

Lemma snapshotIndex_range (messages : list Message.t) (snapshot : option Snapshot.t) :
  (-1 ≤ snapshotIndex messages snapshot < Z.of_nat (length messages))%Z.
Proof. apply findIndex_range. Qed.

(** Where [snapshotIndex] is not negative, [messages[snapshotIndex]]
    exists and carries the snapshot's [chatIndex]. *)
Lemma snapshotIndex_defined (messages : list Message.t) (snapshot : option Snapshot.t) :
  (0 ≤ snapshotIndex messages snapshot)%Z →
  ∃ m, JS.at_ (snapshotIndex messages snapshot) messages = Some m ∧
       Message.id m = Snapshot.chatIndex (validSnapshot snapshot).
Proof.
  intros Hge. unfold snapshotIndex in *.
  destruct (findIndex_found _ _ Hge) as (m & Hm & Hp & _).
  exists m. unfold JS.at_.
  match goal with |- context [(?i <? 0)%Z] => destruct (Z.ltb_spec0 i 0) end;
    [lia|].
  split; [done|]. by apply String.eqb_eq.
Qed.

Lemma startingIdx_cases (messages : list Message.t)
    (snapshot : option Snapshot.t) (rewindId : option string) :
  startingIdx messages snapshot rewindId = (-1)%Z ∨
  (startingIdx messages snapshot rewindId = snapshotIndex messages snapshot ∧
   (0 ≤ snapshotIndex messages snapshot < endingIdx messages rewindId)%Z).
Proof.
  unfold startingIdx.
  destruct (_ && match JS.at_ _ _ with Some _ => _ | None => _ end); [by left|].
  destruct (Z.leb_spec0 0 (snapshotIndex messages snapshot));
    destruct (Z.ltb_spec0 (snapshotIndex messages snapshot)
                          (endingIdx messages rewindId)); simpl;
    first [by left | right; lia].
Qed.

(** *** The rewind resolver: what [processStoredMessages] leaves behind *)

Lemma processStoredMessages_run (env : Env Metadata)
    (storedMessages : ChatHistoryItem.t Metadata)
    (snapshot : option Snapshot.t) (w : World Metadata) :
  let messages := ChatHistoryItem.messages storedMessages in
  let s := startingIdx messages snapshot (rewindTo env) in
  let e := endingIdx messages (rewindTo env) in
  ∃ w',
    processStoredMessages env storedMessages snapshot w = (Normal tt, w') ∧
    archivedMessages w' =
      (if (0 <=? s)%Z then JS.slice 0 (s + 1) messages else []) ∧
    initialMessages w' =
      prepended env messages snapshot ++ JS.slice (s + 1) e messages ∧
    effects w' =
      effects w ++ (if (0 <? s)%Z then [RestoreSnapshot (mixedId env)] else []) ∧
    storage w' = storage w ∧
    chatId w' = Some (ChatHistoryItem.id storedMessages) ∧
    ready w' = true.
Proof.
  intros messages s e. unfold processStoredMessages, prepended.
  fold messages. fold s. fold e.
  destruct (Z.ltb_spec0 0 s) as [Hs|Hs].
  - destruct (startingIdx_cases messages snapshot (rewindTo env))
      as [E|[E Hr]]; fold s in E; [lia|].
    destruct (snapshotIndex_defined messages snapshot) as (m & Hm & Hid);
      [lia|].
    eexists. split.
    + unfold mbind, js_bind, setArchivedMessages, modify. simpl.
      rewrite Hm. simpl. reflexivity.
    + simpl. rewrite Hid. by split_and!.
  - eexists. split; [reflexivity|]. simpl. split_and!; try done.
    by rewrite app_nil_r.
Qed.

(** A rewind target the code takes as given ([rewindId] is truthy) that
    is the id of no message makes [findIndex] answer [-1], hence
    [endingIdx = 0]: the window and the archive are both empty. *)
Lemma endingIdx_target_absent (messages : list Message.t) (r : string) :
  JS.truthy (Some r) = true →
  r ∉ (Message.id <$> messages) →
  endingIdx messages (Some r) = 0%Z.
Proof.
  intros Hr Habs. pose proof (not_among_ids _ _ Habs) as Habs'.
  unfold endingIdx. rewrite Hr.
  assert (JS.findIndex (λ m, JS.eqq (Message.id m) (Some r)) messages
          = (-1)%Z) as ->; [|done].
  apply findIndex_absent. intros m Hm. simpl.
  apply String.eqb_neq. by apply Habs'.
Qed.

Lemma processStoredMessages_target_absent (env : Env Metadata)
    (storedMessages : ChatHistoryItem.t Metadata)
    (snapshot : option Snapshot.t) (w : World Metadata) (r : string) :
  rewindTo env = Some r →
  JS.truthy (Some r) = true →
  r ∉ (Message.id <$> ChatHistoryItem.messages storedMessages) →
  ∃ w',
    processStoredMessages env storedMessages snapshot w = (Normal tt, w') ∧
    initialMessages w' = [] ∧ archivedMessages w' = [].
Proof.
  intros Hrw Hr Habs.
  destruct (processStoredMessages_run env storedMessages snapshot w)
    as (w' & Hrun & Harch & Hinit & _).
  exists w'. split; [done|].
  pose proof (endingIdx_target_absent _ _ Hr Habs) as He.
  rewrite Hrw in Harch, Hinit. unfold prepended in Hinit.
  rewrite Hrw in Hinit. rewrite He in Hinit.
  destruct (startingIdx_cases (ChatHistoryItem.messages storedMessages)
              snapshot (Some r)) as [E|[_ E]]; [|lia].
  rewrite E in Harch, Hinit. simpl in Harch, Hinit.
  split; [|done]. rewrite Hinit, slice_in_range by lia.
  by replace (Z.to_nat (0 - (-1 + 1))) with 0%nat by lia.
Qed.

(** C2.  When the message at [snapshotIndex > 0] carries the id [r] of
    the given rewind target, [startingIdx] is forced to [-1]: the window
    is [messages[0 .. idx(r)+1)] with nothing in front of it, nothing is
    archived and no restore is started. *)
Theorem rewind_to_anchor_replays_from_start (env : Env Metadata)
    (storedMessages : ChatHistoryItem.t Metadata)
    (snapshot : option Snapshot.t) (w : World Metadata) (r : string) :
  let messages := ChatHistoryItem.messages storedMessages in
  rewindTo env = Some r →
  JS.truthy (Some r) = true →
  (0 < snapshotIndex messages snapshot)%Z →
  Message.id <$> JS.at_ (snapshotIndex messages snapshot) messages = Some r →
  ∃ w',
    processStoredMessages env storedMessages snapshot w = (Normal tt, w') ∧
    startingIdx messages snapshot (rewindTo env) = (-1)%Z ∧
    initialMessages w' =
      JS.slice 0 (JS.findIndex (λ m, String.eqb (Message.id m) r) messages + 1)
               messages ∧
    archivedMessages w' = [] ∧
    effects w' = effects w.
Proof.
  intros messages Hrw Hr Hpos Hat.
  destruct (snapshotIndex_defined messages snapshot) as (m & Hm & Hid); [lia|].
  rewrite Hm in Hat. simpl in Hat. injection Hat as Hmr.
  assert (startingIdx messages snapshot (Some r) = (-1)%Z) as Hs.
  { unfold startingIdx. rewrite Hm. simpl. rewrite Hmr, String.eqb_refl.
    by destruct (Z.ltb_spec0 0 (snapshotIndex messages snapshot)); [|lia]. }
  destruct (processStoredMessages_run env storedMessages snapshot w)
    as (w' & Hrun & Harch & Hinit & Heff & _).
  fold messages in Harch, Hinit, Heff. unfold prepended in Hinit.
  rewrite Hrw in *. rewrite Hs in Harch, Hinit, Heff.
  simpl in Harch, Hinit, Heff.
  exists w'. split_and!; [done|done| |done|by rewrite app_nil_r in Heff].
  rewrite Hinit. unfold endingIdx. by rewrite Hr.
Qed.

(** C3.  With a snapshot whose [chatIndex] is found at [snapshotIndex > 0]
    and a rewind target that is absent, or given and first found after
    that index, the window is [messages[snapshotIndex+1 .. endingIdx)]
    with exactly two messages in front: a user message annotated
    [no-store] and [hidden], and an assistant message whose id is the
    snapshot's [chatIndex].  Here [endingIdx] is the index of the rewind
    target plus one and, without a target, the number of messages; the
    messages up to the anchor are archived. *)
Theorem restore_prepends_two_messages (env : Env Metadata)
    (storedMessages : ChatHistoryItem.t Metadata)
    (S : Snapshot.t) (w : World Metadata) :
  let messages := ChatHistoryItem.messages storedMessages in
  let anchor := snapshotIndex messages (Some S) in
  let stop :=
    match rewindTo env with
    | Some r => (JS.findIndex (λ m, String.eqb (Message.id m) r) messages + 1)%Z
    | None => Z.of_nat (length messages)
    end in
  (0 < anchor)%Z →
  (∀ r, rewindTo env = Some r →
        JS.truthy (Some r) = true ∧
        (anchor < JS.findIndex (λ m, String.eqb (Message.id m) r) messages)%Z) →
  ∃ w' u a,
    processStoredMessages env storedMessages (Some S) w = (Normal tt, w') ∧
    initialMessages w' = [u; a] ++ JS.slice (anchor + 1) stop messages ∧
    archivedMessages w' = JS.slice 0 (anchor + 1) messages ∧
    Message.role u = user ∧
    Message.annotations u = Some [JString "no-store"; JString "hidden"] ∧
    Message.role a = assistant ∧
    Message.id a = Snapshot.chatIndex S.
Proof.
  intros messages anchor stop Hpos Hrw.
  destruct (snapshotIndex_defined messages (Some S)) as (m & Hm & Hid); [lia|].
  pose proof (snapshotIndex_range messages (Some S)) as Hsi.
  fold anchor in Hm, Hsi.
  assert (endingIdx messages (rewindTo env) = stop) as Hstop.
  { unfold endingIdx, stop. destruct (rewindTo env) as [r|]; [|done].
    destruct (Hrw r eq_refl) as [Ht _]. by rewrite Ht. }
  assert (JS.eqq (Message.id m) (rewindTo env) = false) as Hne.
  { destruct (rewindTo env) as [r|]; [|done].
    destruct (Hrw r eq_refl) as [_ Hlt]. simpl.
    apply String.eqb_neq. intros E. revert Hlt.
    unfold anchor, snapshotIndex. simpl in *. rewrite <- Hid, E. lia. }
  assert (anchor < stop)%Z as Hend.
  { unfold stop. destruct (rewindTo env) as [r|]; [|lia].
    destruct (Hrw r eq_refl) as [_ Hlt]. lia. }
  assert (startingIdx messages (Some S) (rewindTo env) = anchor) as Hs.
  { unfold startingIdx. fold anchor. rewrite Hstop, Hm, Hne, andb_false_r.
    destruct (Z.leb_spec0 0 anchor); [|lia].
    by destruct (Z.ltb_spec0 anchor stop). }
  destruct (processStoredMessages_run env storedMessages (Some S) w)
    as (w' & Hrun & Harch & Hinit & _).
  fold messages in Harch, Hinit. unfold prepended in Hinit.
  rewrite Hs, Hstop in Hinit. rewrite Hs in Harch.
  destruct (Z.ltb_spec0 0 anchor); [|lia].
  destruct (Z.leb_spec0 0 anchor); [|lia].
  exists w'. eexists. eexists. split; [done|]. split; [exact Hinit|].
  split; [exact Harch|]. done.
Qed.

(** C4.  The window is the prepended synthetic messages followed by a
    part of [messages]; the archive followed by that part is exactly
    [messages[0 .. endingIdx)]. *)
Theorem archived_and_window_reconstruct (env : Env Metadata)
    (storedMessages : ChatHistoryItem.t Metadata)
    (snapshot : option Snapshot.t) (w : World Metadata) :
  let messages := ChatHistoryItem.messages storedMessages in
  ∃ w' window,
    processStoredMessages env storedMessages snapshot w = (Normal tt, w') ∧
    initialMessages w' = prepended env messages snapshot ++ window ∧
    window = drop (length (prepended env messages snapshot)) (initialMessages w') ∧
    archivedMessages w' ++ window =
      JS.slice 0 (endingIdx messages (rewindTo env)) messages.
Proof.
  intros messages.
  destruct (processStoredMessages_run env storedMessages snapshot w)
    as (w' & Hrun & Harch & Hinit & _).
  fold messages in Harch, Hinit.
  exists w', (JS.slice (startingIdx messages snapshot (rewindTo env) + 1)
                       (endingIdx messages (rewindTo env)) messages).
  split_and!; [done..|by rewrite Hinit, drop_app_length|]. rewrite Harch.
  pose proof (endingIdx_range messages (rewindTo env)).
  destruct (startingIdx_cases messages snapshot (rewindTo env)) as [E|[E Hr]];
    rewrite E.
  - done.
  - destruct (Z.leb_spec0 0 (snapshotIndex messages snapshot)); [|lia].
    apply slice_split; lia.
Qed.

(** C5.  Without a snapshot and without a rewind target (the parameter is
    missing, or empty, which the code takes as missing), when no message
    has the empty id, the window is the whole of [messages] and nothing is
    archived.  That the ids be distinct is not needed. *)
Theorem no_snapshot_no_rewind_keeps_all (env : Env Metadata)
    (storedMessages : ChatHistoryItem.t Metadata) (w : World Metadata) :
  let messages := ChatHistoryItem.messages storedMessages in
  JS.truthy (rewindTo env) = false →
  EmptyString ∉ (Message.id <$> messages) →
  ∃ w',
    processStoredMessages env storedMessages None w = (Normal tt, w') ∧
    initialMessages w' = messages ∧
    archivedMessages w' = [].
Proof.
  intros messages Hrw Hids. pose proof (not_among_ids _ _ Hids) as Hids'.
  destruct (processStoredMessages_run env storedMessages None w)
    as (w' & Hrun & Harch & Hinit & _).
  fold messages in Harch, Hinit. unfold prepended in Hinit.
  assert (snapshotIndex messages None = (-1)%Z) as Hsi.
  { apply findIndex_absent. intros m Hm. simpl.
    apply String.eqb_neq. by apply Hids'. }
  destruct (startingIdx_cases messages None (rewindTo env)) as [E|[_ E]];
    [|lia].
  rewrite E in Harch, Hinit. simpl in Harch, Hinit.
  exists w'. split_and!; [done| |done].
  rewrite Hinit. unfold endingIdx. rewrite Hrw. apply slice_all.
Qed.

(** C6, as amended.  When neither the snapshot's [chatIndex] nor the empty
    string (the [chatIndex] of the placeholder used without a snapshot) is
    the id of a message, the resolver does with the snapshot exactly what
    it does without one. *)
Theorem unmatched_snapshot_is_ignored (env : Env Metadata)
    (storedMessages : ChatHistoryItem.t Metadata)
    (S : Snapshot.t) (w : World Metadata) :
  let messages := ChatHistoryItem.messages storedMessages in
  Snapshot.chatIndex S ∉ (Message.id <$> messages) →
  EmptyString ∉ (Message.id <$> messages) →
  processStoredMessages env storedMessages (Some S) w =
    processStoredMessages env storedMessages None w ∧
  prepended env messages (Some S) = [] ∧
  prepended env messages None = [].
Proof.
  intros messages HS Hempty.
  pose proof (not_among_ids _ _ HS) as HS'.
  pose proof (not_among_ids _ _ Hempty) as Hempty'.
  assert (∀ snapshot,
            (∀ m, m ∈ messages →
                  Message.id m ≠ Snapshot.chatIndex (validSnapshot snapshot)) →
            startingIdx messages snapshot (rewindTo env) = (-1)%Z) as Hnone.
  { intros snapshot Habs.
    assert (snapshotIndex messages snapshot = (-1)%Z) as Hsi.
    { apply findIndex_absent. intros m Hm. simpl.
      apply String.eqb_neq. by apply Habs. }
    destruct (startingIdx_cases messages snapshot (rewindTo env))
      as [E|[_ E]]; [done|lia]. }
  pose proof (Hnone (Some S) HS') as H1. pose proof (Hnone None Hempty') as H2.
  unfold prepended. rewrite H1, H2. split; [|done].
  unfold processStoredMessages. fold messages. by rewrite H1, H2.
Qed.

(** *** The fallback store *)

Lemma afterRead_storage (w : World Metadata) :
  storage (afterRead w) = storage w.
Proof. unfold afterRead. by destruct (chats (storage w)). Qed.

Lemma afterRead_effects (w : World Metadata) :
  effects (afterRead w) = effects w ++ readError w.
Proof.
  unfold afterRead, readError.
  destruct (chats (storage w)); simpl; by rewrite ?app_nil_r.
Qed.

Lemma afterRead_eq (w : World Metadata) :
  afterRead w = with_effects (effects w ++ readError w) w.
Proof.
  unfold afterRead, readError, with_effects.
  destruct (chats (storage w)); simpl; rewrite ?app_nil_r; by destruct w.
Qed.

Lemma afterRead_parsable (w : World Metadata) :
  chats (storage w) ≠ Unparsable → afterRead w = w.
Proof. unfold afterRead. by destruct (chats (storage w)). Qed.

Lemma getAllChatsFromLocalStorage_run (w : World Metadata) :
  getAllChatsFromLocalStorage w =
    if available (storage w) then (Normal (stored w), afterRead w)
    else (Normal [], (emit (ConsoleWarn "LocalStorage is not available") w).2).
Proof.
  unfold getAllChatsFromLocalStorage, isLocalStorageAvailable, try_catch,
    throw, get, stored, afterRead, mbind, js_bind, mret, js_ret.
  destruct (available (storage w)) eqn:Hu; simpl; [|done].
  by destruct (chats (storage w)).
Qed.

Lemma saveChatToLocalStorage_run (chat : Chat) (w : World Metadata) :
  saveChatToLocalStorage chat w =
    if available (storage w) then
      if acceptsChats (storage w) (upsert chat (stored w))
      then setItem_chats (upsert chat (stored w)) (afterRead w)
      else emit (ConsoleError "Error saving chat to LocalStorage:") (afterRead w)
    else emit (ConsoleWarn "LocalStorage is not available") w.
Proof.
  unfold saveChatToLocalStorage.
  unfold mbind at 1, js_bind at 1, isLocalStorageAvailable at 1, get at 1.
  destruct (available (storage w)) eqn:Hu; simpl; [|done].
  unfold try_catch, mbind, js_bind.
  rewrite getAllChatsFromLocalStorage_run, Hu. fold (upsert chat (stored w)).
  unfold setItem_chats. rewrite afterRead_storage.
  by destruct (acceptsChats (storage w) _).
Qed.

Lemma effects_grown (es : list (Effect Metadata)) (e : Effect Metadata)
    (more : list (Effect Metadata)) :
  (es ++ more) ++ [e] ≠ es.
Proof.
  intros E. apply (f_equal length) in E. rewrite !length_app in E.
  simpl in E. lia.
Qed.

Lemma saved_iff (chat : Chat) (w : World Metadata) :
  saved chat w ↔
  available (storage w) = true ∧
  chats (storage w) ≠ Unparsable ∧
  acceptsChats (storage w) (upsert chat (stored w)) = true.
Proof.
  unfold saved. rewrite saveChatToLocalStorage_run.
  destruct (available (storage w)).
  - unfold setItem_chats. rewrite afterRead_storage.
    destruct (acceptsChats (storage w) _); simpl.
    + rewrite afterRead_effects. unfold readError.
      destruct (chats (storage w)); simpl; rewrite ?app_nil_r;
        split; try done.
      * intros E. apply (f_equal length) in E. rewrite length_app in E.
        simpl in E. lia.
      * by intros (_ & ? & _).
    + rewrite afterRead_effects.
      split; [|by intros (_ & _ & ?)]. intros E.
      by apply effects_grown in E.
  - simpl. split; [|by intros [? _]]. intros E.
    apply (f_equal length) in E. rewrite length_app in E. simpl in E. lia.
Qed.

Lemma saved_stored (chat : Chat) (w : World Metadata) :
  saved chat w →
  stored (saveChatToLocalStorage chat w).2 = upsert chat (stored w).
Proof.
  intros (Hu & _ & Ha)%saved_iff. rewrite saveChatToLocalStorage_run, Hu.
  unfold setItem_chats. rewrite afterRead_storage. by rewrite Ha.
Qed.

(** The index written by [chats[existingIndex] = chat] is within the
    array, so that the assignment replaces an entry. *)
Lemma upsert_cases (chat : Chat) (chats : list Chat) :
  let X := LocalStorageChat.id chat in
  (∃ (i : nat) c,
      chats !! i = Some c ∧ LocalStorageChat.id c = X ∧
      (∀ j d, (j < i)%nat → chats !! j = Some d → LocalStorageChat.id d ≠ X) ∧
      upsert chat chats = <[i := chat]> chats) ∨
  ((∀ c, c ∈ chats → LocalStorageChat.id c ≠ X) ∧
   upsert chat chats = chats ++ [chat]).
Proof.
  intros X. unfold upsert.
  set (p := λ c : Chat, String.eqb (LocalStorageChat.id c) (LocalStorageChat.id chat)).
  destruct (Z.leb_spec0 0 (JS.findIndex p chats)) as [Hge|Hlt].
  - left. destruct (findIndex_found p chats Hge) as (c & Hc & Hp & Hfirst).
    exists (Z.to_nat (JS.findIndex p chats)), c. split_and!; [done| |  |done].
    + by apply String.eqb_eq.
    + intros j d Hj Hd. apply String.eqb_neq. by apply (Hfirst j).
  - right. split; [|done].
    pose proof (findIndex_range p chats).
    assert (JS.findIndex p chats = (-1)%Z) as E by lia.
    intros c Hc. apply String.eqb_neq.
    by apply (proj1 (findIndex_absent p chats) E).
Qed.

Lemma find_upsert (chat : Chat) (chats : list Chat) :
  JS.find (λ c, String.eqb (LocalStorageChat.id c) (LocalStorageChat.id chat))
          (upsert chat chats) = Some chat.
Proof.
  set (p := λ c : Chat, String.eqb (LocalStorageChat.id c) (LocalStorageChat.id chat)).
  assert (p chat = true) as Hchat by apply String.eqb_refl.
  rewrite find_findIndex.
  destruct (upsert_cases chat chats) as [(i & c & Hi & Hc & Hfirst & ->)|[Habs ->]].
  - pose proof (lookup_lt_Some _ _ _ Hi) as Hlt.
    rewrite (findIndex_first p _ i chat).
    + unfold JS.at_. destruct (Z.ltb_spec0 (Z.of_nat i) 0); [lia|].
      rewrite Nat2Z.id. by apply list_lookup_insert_eq.
    + by apply list_lookup_insert_eq.
    + done.
    + intros j d Hj Hd. rewrite list_lookup_insert_ne in Hd by lia.
      apply String.eqb_neq. by apply (Hfirst j).
  - rewrite (findIndex_first p _ (length chats) chat).
    + unfold JS.at_. destruct (Z.ltb_spec0 (Z.of_nat (length chats)) 0); [lia|].
      rewrite Nat2Z.id. by rewrite lookup_app_r, Nat.sub_diag.
    + by rewrite lookup_app_r, Nat.sub_diag.
    + done.
    + intros j d Hj Hd. rewrite lookup_app_l in Hd by done.
      apply String.eqb_neq. apply Habs. by eapply list_elem_of_lookup_2.
Qed.

Lemma entries_absent (X : string) (chats : list Chat) :
  (∀ c, c ∈ chats → LocalStorageChat.id c ≠ X) → entries X chats = 0%nat.
Proof.
  unfold entries. induction chats as [|c chats IH]; intros Habs; [done|].
  simpl. destruct (String.eqb_spec (LocalStorageChat.id c) X) as [E|_].
  - exfalso. apply (Habs c); [left|done].
  - apply IH. intros d Hd. apply Habs. by right.
Qed.

Lemma entries_insert (X : string) (chats : list Chat) (i : nat) (c chat : Chat) :
  chats !! i = Some c →
  LocalStorageChat.id c = X → LocalStorageChat.id chat = X →
  entries X (<[i := chat]> chats) = entries X chats.
Proof.
  intros Hi Hc Hchat. unfold entries.
  rewrite insert_take_drop by (by eapply lookup_lt_Some).
  rewrite <- (take_drop_middle chats i c Hi) at 3.
  rewrite !List.filter_app, !length_app. simpl.
  by rewrite Hc, Hchat, String.eqb_refl.
Qed.

Lemma getChatFromLocalStorage_run (id : string) (w : World Metadata) :
  available (storage w) = true →
  getChatFromLocalStorage id w =
    (Normal (JS.find (λ c, String.eqb (LocalStorageChat.id c) id) (stored w)),
     afterRead w).
Proof.
  intros Hu.
  unfold getChatFromLocalStorage.
  unfold mbind at 1, js_bind at 1, isLocalStorageAvailable at 1, get at 1.
  rewrite Hu. simpl. unfold mbind, js_bind.
  by rewrite getAllChatsFromLocalStorage_run, Hu.
Qed.

(** C8.  A chat saved in the fallback store and loaded by its id right
    away, the store being still available at the load, comes back with the
    messages, the description and the metadata that were saved. *)
Theorem save_then_load_returns_saved (chat : Chat) (w : World Metadata) :
  saved chat w →
  let w1 := (saveChatToLocalStorage chat w).2 in
  available (storage w1) = true →
  ∃ loaded,
    getChatFromLocalStorage (LocalStorageChat.id chat) w1
      = (Normal (Some loaded), w1) ∧
    LocalStorageChat.messages loaded = LocalStorageChat.messages chat ∧
    LocalStorageChat.description loaded = LocalStorageChat.description chat ∧
    LocalStorageChat.metadata loaded = LocalStorageChat.metadata chat.
Proof.
  intros Hsaved w1 Hu. pose proof (saved_stored chat w Hsaved) as Hst.
  exists chat. split; [|done].
  rewrite getChatFromLocalStorage_run by done. fold w1 in Hst.
  rewrite Hst, find_upsert. f_equal. apply afterRead_parsable.
  apply saved_iff in Hsaved as (Hu0 & _ & Ha). unfold w1.
  rewrite saveChatToLocalStorage_run, Hu0. unfold setItem_chats.
  rewrite afterRead_storage, Ha. done.
Qed.

(** C9.  A save of a chat with id [X] that goes through replaces the
    first entry with id [X] in place when there is one, and appends the
    chat otherwise; the entries with another id stay where they are, and
    the number of entries with id [X] does not grow beyond one. *)
Theorem save_replaces_or_appends (chat : Chat) (w : World Metadata) :
  let X := LocalStorageChat.id chat in
  let old := stored w in
  let new := stored (saveChatToLocalStorage chat w).2 in
  saved chat w →
  ((∃ c, c ∈ old ∧ LocalStorageChat.id c = X) →
     length new = length old ∧
     ∃ i c, old !! i = Some c ∧ LocalStorageChat.id c = X ∧
            new = <[i := chat]> old) ∧
  ((∀ c, c ∈ old → LocalStorageChat.id c ≠ X) → new = old ++ [chat]) ∧
  (∀ i c, old !! i = Some c → LocalStorageChat.id c ≠ X → new !! i = Some c) ∧
  entries X new = Nat.max 1 (entries X old).
Proof.
  intros X old new Hsaved.
  pose proof (saved_stored chat w Hsaved) as Hst. fold new old in Hst.
  rewrite Hst. clear Hst new.
  destruct (upsert_cases chat old) as [(i & c & Hi & Hc & Hfirst & ->)|[Habs ->]];
    fold X in Hc || fold X in Habs.
  - split_and!.
    + intros _. split; [by rewrite length_insert|]. by exists i, c.
    + intros Hno. exfalso. apply (Hno c); [by eapply list_elem_of_lookup_2|done].
    + intros j d Hj Hd. rewrite list_lookup_insert_ne; [done|].
      intros <-. congruence.
    + rewrite (entries_insert X old i c chat) by done.
      assert (0 < entries X old)%nat; [|lia].
      unfold entries. rewrite <- (take_drop_middle old i c Hi).
      rewrite List.filter_app, length_app. simpl.
      rewrite Hc, String.eqb_refl. simpl. lia.
  - split_and!.
    + intros (c & Hin & Hc). by destruct (Habs c Hin).
    + done.
    + intros j d Hj _. rewrite lookup_app_l; [done|]. by eapply lookup_lt_Some.
    + unfold entries at 1. rewrite List.filter_app, length_app. simpl.
      fold (entries X old). rewrite (entries_absent X old Habs).
      unfold X. by rewrite String.eqb_refl.
Qed.

(** C10.  With neither a [chatId] argument nor a [currentChatId] in the
    store, [saveMessagesToLocalStorage] returns at once: the storage is
    not written and nothing is logged. *)
Theorem saveMessagesToLocalStorage_without_id (now : string)
    (messages : list Message.t) (chatId : option string) (w : World Metadata) :
  JS.truthy chatId = false →
  JS.truthy (ChatState.currentChatId (chatStore w)) = false →
  saveMessagesToLocalStorage now messages chatId w = (Normal tt, w).
Proof.
  intros Harg Hstore.
  unfold saveMessagesToLocalStorage, get, mbind, js_bind, JS.or_else.
  rewrite Harg. simpl.
  destruct (ChatState.currentChatId (chatStore w)) as [id|]; [|done].
  by rewrite Hstore.
Qed.

(** *** Saving the history *)

(** Runs the monad's plumbing, leaving the functions of the sources
    folded. *)
Ltac js_run :=
  cbv beta iota delta
    [mbind js_bind mret js_ret get await modify emit throw defined try_catch
     navigateChat setUrlId setArchivedMessages setInitialMessages setReady
     restoreSnapshot andb negb].

(** Splits on the next test the evaluation is stuck on. *)
Ltac js_case :=
  match goal with
  | |- context [if ?b then _ else _] =>
      lazymatch b with
      | context [if _ then _ else _] => fail
      | _ => destruct b eqn:?
      end
  | |- context [match chatId ?x with Some _ => _ | None => _ end] =>
      destruct (chatId x) eqn:?
  end.

Lemma lastItem_nonempty {A} (l : list A) :
  l ≠ [] → ∃ x, JS.lastItem l = Some x.
Proof.
  intros Hl. unfold JS.lastItem, JS.at_.
  destruct l as [|x l]; [done|].
  destruct (Z.ltb_spec0 (Z.of_nat (length (x :: l)) - 1) 0) as [Hlt|_].
  - simpl in Hlt. lia.
  - apply lookup_lt_is_Some_2. simpl. lia.
Qed.

Lemma lastItem_empty {A} : JS.lastItem (@nil A) = None.
Proof. done. Qed.

(** Without a chat id [takeSnapshot] returns at once. *)
Lemma takeSnapshot_without_id (env : Env Metadata) (chatIdx : string)
    (files : FileMap) (_chatId chatSummary : option string) (w : World Metadata) :
  JS.truthy (chatId w) = false →
  takeSnapshot env chatIdx files _chatId chatSummary w = (Normal tt, w).
Proof.
  intros Hid. unfold takeSnapshot, get, mbind, js_bind.
  destruct (chatId w) as [i|]; [|done].
  destruct (db env); [|done]. by rewrite Hid.
Qed.

(** When every message of a non-empty list is annotated [no-store], the
    filter leaves nothing, [messages[messages.length - 1]] is [undefined]
    and reading its [role] throws; provided the lookup of the url id, if
    it is made, answers.  Nothing is written and nothing is shown. *)
Lemma storeMessageHistory_nothing_to_store (env : Env Metadata)
    (messages : list Message.t) (w : World Metadata) :
  messages ≠ [] →
  List.filter (λ m, negb (noStore m)) messages = [] →
  (db env = None ∨ firstArtifact env = None ∨ JS.truthy (urlId w) = true) →
  storeMessageHistory env messages w = (Throw "TypeError", w).
Proof.
  intros Hne Hkept Hurl.
  assert ((Z.of_nat (length messages) =? 0)%Z = false) as Hlen.
  { destruct messages; [done|]. apply Z.eqb_neq. simpl. lia. }
  unfold storeMessageHistory. rewrite Hlen, Hkept. js_run.
  destruct (firstArtifact env) as [a|]; [|done].
  destruct (db env) as [d|]; [|done].
  destruct Hurl as [?|[?|Hurl]]; [done..|]. by rewrite Hurl.
Qed.

(** What does hold of the missing chat id: when some message is to be
    stored and the lookup of the url id, if it is made, answers, a save
    with no chat id and no id to assign stops with the console message and
    the toast, having written to neither store; before them it has at most
    replaced the URL. *)
Lemma storeMessageHistory_missing_chat_id (env : Env Metadata)
    (messages : list Message.t) (w : World Metadata) :
  List.filter (λ m, negb (noStore m)) messages ≠ [] →
  JS.truthy (chatId w) = false →
  initialMessages w ≠ [] →
  (∀ d a, db env = Some d → firstArtifact env = Some a →
          ∃ u, getUrlId d (Artifact.id a) = Normal u) →
  ∃ w' navigation,
    storeMessageHistory env messages w = (Normal tt, w') ∧
    storage w' = storage w ∧
    effects w' = effects w ++ navigation ++
      [ConsoleError "Cannot save messages, chat ID is not set.";
       ToastError "Failed to save chat messages: Chat ID missing."] ∧
    ∀ e, e ∈ navigation → ∃ path, e = ReplaceState path.
Proof.
  intros Hkept Hid Hinit Hurl.
  destruct (lastItem_nonempty _ Hkept) as (lastMessage & Hlast).
  assert ((Z.of_nat (length messages) =? 0)%Z = false) as Hlen.
  { destruct messages; [done|]. apply Z.eqb_neq. simpl. lia. }
  assert ((Z.of_nat (length (initialMessages w)) =? 0)%Z = false) as Hlen'.
  { destruct (initialMessages w); [done|]. apply Z.eqb_neq. simpl. lia. }
  unfold storeMessageHistory. rewrite Hlen. clear Hlen Hkept.
  set (kept := List.filter _ messages) in *. clearbody kept.
  js_run. rewrite Hlen'.
  destruct (firstArtifact env) as [a|] eqn:Ha; destruct (db env) as [d|] eqn:Hd;
    try (destruct (Hurl d a eq_refl eq_refl) as [u Hu]);
    destruct (JS.truthy (urlId w));
    try destruct (JS.truthy (Some (Artifact.id a)));
    js_run; rewrite ?Hu; js_run; rewrite Hlast; js_run;
    (rewrite takeSnapshot_without_id by done); js_run.
  all: repeat (simpl; js_run; js_case; try congruence).
  all: try (eexists; exists []; split_and!;
        [reflexivity | reflexivity | simpl; by rewrite <- ?app_assoc
        | by intros e ?%elem_of_nil ]).
  all: eexists; eexists [_]; split_and!;
        [reflexivity | reflexivity | simpl; by rewrite <- ?app_assoc
        | intros e ->%list_elem_of_singleton; by eexists ].
Qed.

(** *** More on the fallback store *)

Lemma deleteChatFromLocalStorage_run (id : string) (w : World Metadata) :
  deleteChatFromLocalStorage id w =
    let kept := List.filter (λ c : Chat, negb (String.eqb (LocalStorageChat.id c) id))
                            (stored w) in
    if available (storage w) then
      if acceptsChats (storage w) kept
      then setItem_chats kept (afterRead w)
      else emit (ConsoleError "Error deleting chat from LocalStorage:")
                (afterRead w)
    else emit (ConsoleWarn "LocalStorage is not available") w.
Proof.
  unfold deleteChatFromLocalStorage.
  unfold mbind at 1, js_bind at 1, isLocalStorageAvailable at 1, get at 1.
  destruct (available (storage w)) eqn:Hu; simpl; [|done].
  unfold try_catch, mbind, js_bind.
  rewrite getAllChatsFromLocalStorage_run, Hu.
  unfold setItem_chats. rewrite afterRead_storage.
  by destruct (acceptsChats (storage w) _).
Qed.

Lemma deleted_iff (id : string) (w : World Metadata) :
  deleted id w ↔
  available (storage w) = true ∧
  chats (storage w) ≠ Unparsable ∧
  acceptsChats (storage w)
    (List.filter (λ c : Chat, negb (String.eqb (LocalStorageChat.id c) id))
                 (stored w)) = true.
Proof.
  unfold deleted. rewrite deleteChatFromLocalStorage_run. simpl.
  destruct (available (storage w)).
  - unfold setItem_chats. rewrite afterRead_storage.
    destruct (acceptsChats (storage w) _); simpl.
    + rewrite afterRead_effects. unfold readError.
      destruct (chats (storage w)); simpl; rewrite ?app_nil_r;
        split; try done.
      * intros E. apply (f_equal length) in E. rewrite length_app in E.
        simpl in E. lia.
      * by intros (_ & ? & _).
    + rewrite afterRead_effects.
      split; [|by intros (_ & _ & ?)]. intros E.
      by apply effects_grown in E.
  - simpl. split; [|by intros [? _]]. intros E.
    apply (f_equal length) in E. rewrite length_app in E. simpl in E. lia.
Qed.

Lemma deleted_stored (id : string) (w : World Metadata) :
  deleted id w →
  stored (deleteChatFromLocalStorage id w).2 =
    List.filter (λ c : Chat, negb (String.eqb (LocalStorageChat.id c) id)) (stored w).
Proof.
  intros (Hu & _ & Ha)%deleted_iff. rewrite deleteChatFromLocalStorage_run.
  simpl. rewrite Hu. unfold setItem_chats. rewrite afterRead_storage.
  by rewrite Ha.
Qed.

(** What a read answers, available or not. *)
Lemma getChatFromLocalStorage_answer (id : string) (w : World Metadata) :
  (getChatFromLocalStorage id w).1 =
    Normal (if available (storage w)
            then JS.find (λ c, String.eqb (LocalStorageChat.id c) id) (stored w)
            else None).
Proof.
  destruct (available (storage w)) eqn:Hu.
  - by rewrite getChatFromLocalStorage_run.
  - unfold getChatFromLocalStorage, isLocalStorageAvailable, get,
      mbind, js_bind, mret, js_ret.
    by rewrite Hu.
Qed.

(** [find] skips an entry that fails the test, whatever replaces it. *)
Lemma find_insert_other {A} (p : A → bool) (l : list A) (i : nat) (c x : A) :
  l !! i = Some c → p c = false → p x = false →
  JS.find p (<[i := x]> l) = JS.find p l.
Proof.
  revert i. induction l as [|y l IH]; intros [|i] Hi Hc Hx; simpl in *; try done.
  - injection Hi as ->. by rewrite Hc, Hx.
  - destruct (p y); [done|]. by apply IH.
Qed.

Lemma find_app_other {A} (p : A → bool) (l : list A) (x : A) :
  p x = false → JS.find p (l ++ [x]) = JS.find p l.
Proof.
  intros Hx. induction l as [|y l IH]; simpl; [by rewrite Hx|].
  by destruct (p y).
Qed.

Lemma find_filter_none {A} (p : A → bool) (l : list A) :
  JS.find p (List.filter (λ x, negb (p x)) l) = None.
Proof.
  induction l as [|y l IH]; simpl; [done|].
  destruct (p y) eqn:Hy; simpl; [done|]. by rewrite Hy.
Qed.

Lemma find_filter_other {A} (p q : A → bool) (l : list A) :
  (∀ x, p x = true → q x = true) →
  JS.find p (List.filter q l) = JS.find p l.
Proof.
  intros Hpq. induction l as [|y l IH]; simpl; [done|].
  destruct (p y) eqn:Hy.
  - rewrite (Hpq y Hy). simpl. by rewrite Hy.
  - destruct (q y); simpl; [by rewrite Hy|done].
Qed.

(** After a save the chat sits at an index that [findIndex] answers. *)
Lemma findIndex_upsert (chat : Chat) (chats : list Chat) :
  ∃ n : nat,
    JS.findIndex (λ c, String.eqb (LocalStorageChat.id c) (LocalStorageChat.id chat))
                 (upsert chat chats) = Z.of_nat n ∧
    upsert chat chats !! n = Some chat.
Proof.
  set (p := λ c : Chat, String.eqb (LocalStorageChat.id c) (LocalStorageChat.id chat)).
  assert (p chat = true) as Hchat by apply String.eqb_refl.
  destruct (upsert_cases chat chats) as [(i & c & Hi & Hc & Hfirst & ->)|[Habs ->]].
  - pose proof (lookup_lt_Some _ _ _ Hi) as Hlt. exists i.
    assert (<[i:=chat]> chats !! i = Some chat) as Hnew
      by by apply list_lookup_insert_eq.
    split; [|done]. apply (findIndex_first p _ i chat); [done..|].
    intros j d Hj Hd. rewrite list_lookup_insert_ne in Hd by lia.
    apply String.eqb_neq. by apply (Hfirst j).
  - exists (length chats).
    assert ((chats ++ [chat]) !! length chats = Some chat) as Hnew
      by by rewrite lookup_app_r, Nat.sub_diag.
    split; [|done]. apply (findIndex_first p _ (length chats) chat); [done..|].
    intros j d Hj Hd. rewrite lookup_app_l in Hd by done.
    apply String.eqb_neq. apply Habs. by eapply list_elem_of_lookup_2.
Qed.

Lemma upsert_idempotent (chat : Chat) (chats : list Chat) :
  upsert chat (upsert chat chats) = upsert chat chats.
Proof.
  destruct (findIndex_upsert chat chats) as (n & Hn & Hat).
  unfold upsert at 1. rewrite Hn.
  destruct (Z.leb_spec0 0 (Z.of_nat n)); [|lia].
  rewrite Nat2Z.id. by apply list_insert_id.
Qed.

Lemma find_upsert_other (chat : Chat) (chats : list Chat) (id : string) :
  id ≠ LocalStorageChat.id chat →
  JS.find (λ c, String.eqb (LocalStorageChat.id c) id) (upsert chat chats) =
  JS.find (λ c, String.eqb (LocalStorageChat.id c) id) chats.
Proof.
  intros Hid.
  assert (String.eqb (LocalStorageChat.id chat) id = false) as Hchat
    by (apply String.eqb_neq; congruence).
  destruct (upsert_cases chat chats) as [(i & c & Hi & Hc & _ & ->)|[_ ->]].
  - apply (find_insert_other _ _ i c); [done| |done].
    apply String.eqb_neq. congruence.
  - by apply find_app_other.
Qed.

(** The ids after a save: unchanged when the id was there, one more
    otherwise. *)
Lemma upsert_ids (chat : Chat) (chats : list Chat) :
  let ids := LocalStorageChat.id <$> chats in
  LocalStorageChat.id <$> upsert chat chats =
    if bool_decide (LocalStorageChat.id chat ∈ ids) then ids
    else ids ++ [LocalStorageChat.id chat].
Proof.
  intros ids.
  destruct (upsert_cases chat chats) as [(i & c & Hi & Hc & _ & ->)|[Habs ->]].
  - rewrite bool_decide_eq_true_2.
    + rewrite list_fmap_insert. apply list_insert_id.
      unfold ids. by rewrite list_lookup_fmap, Hi, <- Hc.
    + rewrite <- Hc. apply list_elem_of_fmap_2. by eapply list_elem_of_lookup_2.
  - rewrite bool_decide_eq_false_2; [by rewrite fmap_app|].
    intros (c & Hc & Hin)%list_elem_of_fmap_1. by apply (Habs c).
Qed.

(** X1.  While the store is unusable nothing is written and the readers
    answer as for an empty store, whatever the store holds. *)
Theorem unusable_store_is_left_alone (chat : Chat) (id : string)
    (current : option string) (w : World Metadata) :
  available (storage w) = false →
  storage (saveChatToLocalStorage chat w).2 = storage w ∧
  storage (deleteChatFromLocalStorage id w).2 = storage w ∧
  storage (setCurrentChatId current w).2 = storage w ∧
  storage (clearLocalStorageChats w).2 = storage w ∧
  (getAllChatsFromLocalStorage w).1 = Normal [] ∧
  (getChatFromLocalStorage id w).1 = Normal None ∧
  (getCurrentChatId w).1 = Normal None.
Proof.
  intros Hu.
  rewrite saveChatToLocalStorage_run, deleteChatFromLocalStorage_run,
    getAllChatsFromLocalStorage_run, getChatFromLocalStorage_answer.
  simpl.
  unfold setCurrentChatId, clearLocalStorageChats, getCurrentChatId,
    isLocalStorageAvailable, get, mbind, js_bind, mret, js_ret.
  by rewrite Hu.
Qed.

(** X2.  A save never throws.  Either the write is done, the stored list
    then being the old one with the chat put in and nothing being logged
    but the error of reading an unparsable value; or the store is as
    before and the failure is logged. *)
Theorem save_never_throws (chat : Chat) (w : World Metadata) :
  let w1 := (saveChatToLocalStorage chat w).2 in
  (saveChatToLocalStorage chat w).1 = Normal tt ∧
  ∃ logged,
    effects w1 = effects w ++ logged ∧
    ((logged = readError w ∧
      stored w1 = upsert chat (stored w) ∧
      currentChat (storage w1) = currentChat (storage w)) ∨
     (logged ≠ [] ∧ storage w1 = storage w)).
Proof.
  intros w1. unfold w1. rewrite saveChatToLocalStorage_run.
  destruct (available (storage w)).
  - unfold setItem_chats. rewrite afterRead_storage.
    destruct (acceptsChats (storage w) _); simpl; (split; [done|]).
    + exists (readError w). rewrite afterRead_effects. split; [done|].
      by left.
    + exists (readError w ++ [ConsoleError "Error saving chat to LocalStorage:"]).
      rewrite afterRead_effects, afterRead_storage, app_assoc.
      split; [done|]. right. split; [|done].
      by destruct (readError w).
  - simpl. split; [done|]. eexists [_]. split; [done|]. by right.
Qed.

(** X3.  Saving the same chat a second time leaves the store as the first
    save left it, and goes through again when the store is still
    available. *)
Theorem save_twice_is_save_once (chat : Chat) (w : World Metadata) :
  saved chat w →
  let w1 := (saveChatToLocalStorage chat w).2 in
  storage (saveChatToLocalStorage chat w1).2 = storage w1 ∧
  (available (storage w1) = true → saved chat w1).
Proof.
  intros Hs w1. pose proof Hs as (Hu & Hp & Ha)%saved_iff.
  assert (storage w1 =
          {| usable := usable (storage w); acceptsChats := acceptsChats (storage w);
             acceptsCurrent := acceptsCurrent (storage w);
             chats := Parsed (upsert chat (stored w));
             currentChat := currentChat (storage w) |}) as Hw1.
  { unfold w1. rewrite saveChatToLocalStorage_run.
    unfold setItem_chats. rewrite afterRead_storage. by rewrite Hu, Ha. }
  assert (stored w1 = upsert chat (stored w)) as Hst
    by (unfold stored at 1; by rewrite Hw1).
  assert (acceptsChats (storage w1) (upsert chat (stored w1)) = true) as Ha1
    by (by rewrite Hst, upsert_idempotent, Hw1).
  assert (chats (storage w1) ≠ Unparsable) as Hp1 by (by rewrite Hw1).
  split; [|by intros Hu1; apply saved_iff].
  rewrite saveChatToLocalStorage_run.
  destruct (available (storage w1)); [|done].
  unfold setItem_chats. rewrite afterRead_storage, Ha1. simpl.
  by rewrite Hst, upsert_idempotent, Hw1.
Qed.

(** X4.  A save of one chat does not change what loading another id
    answers, the store being still available after the save. *)
Theorem save_keeps_other_chats (chat : Chat) (id : string) (w : World Metadata) :
  saved chat w →
  id ≠ LocalStorageChat.id chat →
  available (storage (saveChatToLocalStorage chat w).2) = true →
  (getChatFromLocalStorage id (saveChatToLocalStorage chat w).2).1 =
  (getChatFromLocalStorage id w).1.
Proof.
  intros Hs Hid Hu1. pose proof Hs as (Hu & _)%saved_iff.
  pose proof (saved_stored chat w Hs) as Hst.
  rewrite !getChatFromLocalStorage_answer, Hu, Hu1.
  by rewrite Hst, find_upsert_other.
Qed.

(** X5.  A save keeps the ids of the stored chats distinct. *)
Theorem save_keeps_ids_distinct (chat : Chat) (w : World Metadata) :
  saved chat w →
  NoDup (LocalStorageChat.id <$> stored w) →
  NoDup (LocalStorageChat.id <$> stored (saveChatToLocalStorage chat w).2).
Proof.
  intros Hs Hnd. rewrite (saved_stored chat w Hs).
  rewrite upsert_ids. case_bool_decide as Hin; [done|].
  apply NoDup_app. split_and!; [done| |apply NoDup_singleton].
  intros x Hx ->%list_elem_of_singleton. done.
Qed.

(** X6.  After a deletion that goes through, loading the deleted id
    answers [null], and loading any other id answers as before; should
    the store not be available any more, every load answers [null]. *)
Theorem delete_then_load (id other : string) (w : World Metadata) :
  deleted id w →
  let w1 := (deleteChatFromLocalStorage id w).2 in
  (getChatFromLocalStorage id w1).1 = Normal None ∧
  (other ≠ id →
   (getChatFromLocalStorage other w1).1 =
     if available (storage w1) then (getChatFromLocalStorage other w).1
     else Normal None).
Proof.
  intros Hd w1. pose proof Hd as (Hu & _)%deleted_iff.
  pose proof (deleted_stored id w Hd) as Hst. fold w1 in Hst.
  rewrite !getChatFromLocalStorage_answer, Hu, Hst. split.
  - rewrite (find_filter_none (λ c : Chat, String.eqb (LocalStorageChat.id c) id)).
    by destruct (available (storage w1)).
  - intros Hne. destruct (available (storage w1)); [|done].
    f_equal. apply find_filter_other.
    intros c Hc%String.eqb_eq. apply negb_true_iff, String.eqb_neq. congruence.
Qed.

(** X7.  Saving a chat under an id that is not stored and deleting that id
    gives back the stored list. *)
Theorem save_then_delete_restores (chat : Chat) (w : World Metadata) :
  let w1 := (saveChatToLocalStorage chat w).2 in
  LocalStorageChat.id chat ∉ (LocalStorageChat.id <$> stored w) →
  saved chat w →
  deleted (LocalStorageChat.id chat) w1 →
  stored (deleteChatFromLocalStorage (LocalStorageChat.id chat) w1).2 = stored w.
Proof.
  intros w1 Hnew Hs Hd.
  rewrite (deleted_stored _ w1 Hd).
  pose proof (saved_stored chat w Hs) as Hst. fold w1 in Hst. rewrite Hst.
  destruct (upsert_cases chat (stored w)) as [(i & c & Hi & Hc & _)|[Habs ->]].
  - exfalso. apply Hnew. rewrite <- Hc.
    apply list_elem_of_fmap_2. by eapply list_elem_of_lookup_2.
  - rewrite List.filter_app. simpl. rewrite String.eqb_refl. simpl.
    rewrite app_nil_r. clear Hst Hd Hs Hnew w1.
    induction (stored w) as [|c l IH]; [done|]. simpl.
    assert (LocalStorageChat.id c ≠ LocalStorageChat.id chat) as Hc
      by (apply Habs; left).
    apply String.eqb_neq in Hc. rewrite Hc. simpl. f_equal.
    apply IH. intros d Hin. apply Habs. by right.
Qed.

(** X8.  The pointer to the current chat: a non-empty id whose write is
    accepted is read back; [undefined] or the empty id removes the
    pointer.  The read answers [null] should the store not be available
    any more after the write. *)
Theorem current_chat_pointer_round_trip (current : option string)
    (w : World Metadata) :
  available (storage w) = true →
  let w1 := (setCurrentChatId current w).2 in
  (∀ id, current = Some id → JS.truthy current = true →
         acceptsCurrent (storage w) id = true →
         (getCurrentChatId w1).1 =
           Normal (if available (storage w1) then Some id else None)) ∧
  (JS.truthy current = false → (getCurrentChatId w1).1 = Normal None) ∧
  stored w1 = stored w.
Proof.
  intros Hu w1. unfold w1, setCurrentChatId, getCurrentChatId,
    isLocalStorageAvailable, try_catch, setItem_current, removeItem_current,
    get, modify, emit, stored, mbind, js_bind, mret, js_ret.
  rewrite Hu. simpl. split_and!.
  - intros id -> Ht Ha. rewrite Ht, Ha. simpl.
    by destruct (usable (storage w) _ _).
  - intros Ht. destruct current as [id|]; [rewrite Ht|]; simpl;
      by destruct (usable (storage w) _ _).
  - destruct current as [id|]; [|done].
    destruct (JS.truthy (Some id)); [|done].
    by destruct (acceptsCurrent (storage w) id).
Qed.

(** X9.  After [clearLocalStorageChats] on a usable store no chat and no
    pointer is left. *)
Theorem clear_empties_the_store (id : string) (w : World Metadata) :
  available (storage w) = true →
  let w1 := (clearLocalStorageChats w).2 in
  (getAllChatsFromLocalStorage w1).1 = Normal [] ∧
  (getChatFromLocalStorage id w1).1 = Normal None ∧
  (getCurrentChatId w1).1 = Normal None.
Proof.
  intros Hu w1.
  assert (chats (storage w1) = Absent ∧ currentChat (storage w1) = None)
    as [Hc Hp].
  { unfold w1, clearLocalStorageChats, isLocalStorageAvailable,
      removeItem_chats, removeItem_current, get, modify, mbind, js_bind.
    by rewrite Hu. }
  rewrite getAllChatsFromLocalStorage_run, getChatFromLocalStorage_answer.
  unfold getCurrentChatId, isLocalStorageAvailable, get, mbind, js_bind,
    mret, js_ret, stored.
  rewrite Hc. destruct (available (storage w1)); simpl; by rewrite ?Hp.
Qed.

(** *** The chat store *)

Lemma roomy_available (w : World Metadata) :
  roomy w → available (storage w) = true.
Proof. intros [Hu _]. apply Hu. Qed.

Lemma roomy_storage (w w' : World Metadata) :
  usable (storage w') = usable (storage w) →
  acceptsChats (storage w') = acceptsChats (storage w) →
  roomy w → roomy w'.
Proof. intros Eu Ea [Hu Ha]. split; intros; by rewrite ?Eu, ?Ea. Qed.

Lemma save_roomy (chat : Chat) (w : World Metadata) :
  roomy w →
  saveChatToLocalStorage chat w =
    (Normal tt,
     with_storage {| usable := usable (storage w);
                     acceptsChats := acceptsChats (storage w);
                     acceptsCurrent := acceptsCurrent (storage w);
                     chats := Parsed (upsert chat (stored w));
                     currentChat := currentChat (storage w) |}
                  (with_effects (effects w ++ readError w) w)).
Proof.
  intros Hr. pose proof (roomy_available w Hr) as Hu. destruct Hr as [_ Ha].
  rewrite saveChatToLocalStorage_run.
  unfold setItem_chats. by rewrite afterRead_storage, Hu, Ha, afterRead_eq.
Qed.

Lemma getChatFromLocalStorage_written (id : string) (l : list Chat)
    (s : Storage Metadata) (w : World Metadata) :
  available s = true → chats s = Parsed l →
  getChatFromLocalStorage id (with_storage s w) =
    (Normal (JS.find (λ c, String.eqb (LocalStorageChat.id c) id) l),
     with_storage s w).
Proof.
  intros Hu Hl. rewrite getChatFromLocalStorage_run by done.
  unfold stored, afterRead. simpl. by rewrite Hl.
Qed.

Lemma save_roomy_load (chat : Chat) (w : World Metadata) (id : string) :
  roomy w →
  let w1 := (saveChatToLocalStorage chat w).2 in
  roomy w1 ∧
  stored w1 = upsert chat (stored w) ∧
  currentChat (storage w1) = currentChat (storage w) ∧
  chatStore w1 = chatStore w ∧
  getChatFromLocalStorage id w1 =
    (Normal (JS.find (λ c, String.eqb (LocalStorageChat.id c) id)
                     (upsert chat (stored w))), w1).
Proof.
  intros Hr w1. unfold w1. rewrite save_roomy by done. simpl.
  split_and!; [by apply (roomy_storage w)|done|done|done|].
  apply getChatFromLocalStorage_written; [|done]. apply Hr.
Qed.

Lemma setCurrentChatId_run (id : string) (w : World Metadata) :
  available (storage w) = true →
  JS.truthy (Some id) = true →
  acceptsCurrent (storage w) id = true →
  setCurrentChatId (Some id) w =
    (Normal tt,
     with_storage {| usable := usable (storage w);
                     acceptsChats := acceptsChats (storage w);
                     acceptsCurrent := acceptsCurrent (storage w);
                     chats := chats (storage w);
                     currentChat := Some id |} w).
Proof.
  intros Hu Ht Hc. simpl in Ht.
  unfold setCurrentChatId, isLocalStorageAvailable, try_catch,
    setItem_current, get, mbind, js_bind.
  rewrite Hu. simpl. by rewrite Ht, Hc.
Qed.

(** X10.  What [saveMessagesToLocalStorage] stores under a non-empty
    [chatId] argument is a record with the id, the messages and the
    timestamp only: the store's own [currentChatId] is not used, and a
    description, url id or metadata stored under that id before are gone. *)
Theorem saveMessages_replaces_the_record (now id : string)
    (messages : list Message.t) (w : World Metadata) :
  JS.truthy (Some id) = true →
  roomy w →
  (getChatFromLocalStorage id
     (saveMessagesToLocalStorage now messages (Some id) w).2).1 =
  Normal (Some {| LocalStorageChat.id := id;
                  LocalStorageChat.urlId := None;
                  LocalStorageChat.description := None;
                  LocalStorageChat.messages := messages;
                  LocalStorageChat.timestamp := now;
                  LocalStorageChat.metadata := None |}).
Proof.
  intros Ht Hroomy.
  pose proof Ht as Ht'. simpl in Ht'.
  unfold saveMessagesToLocalStorage, get, mbind, js_bind, JS.or_else.
  rewrite Ht. simpl. rewrite Ht'. simpl.
  match goal with
  | |- context [saveChatToLocalStorage ?c w] =>
      destruct (save_roomy_load c w id Hroomy) as (_ & _ & _ & _ & ->);
      exact (f_equal Normal (find_upsert c (stored w)))
  end.
Qed.

Lemma getCurrentChatId_run (w : World Metadata) :
  getCurrentChatId w =
    (Normal (if available (storage w) then currentChat (storage w) else None), w).
Proof.
  unfold getCurrentChatId, isLocalStorageAvailable, get, mbind, js_bind,
    mret, js_ret.
  by destruct (available (storage w)).
Qed.

Lemma getAllChatsFromLocalStorage_roomy (w : World Metadata) :
  roomy w → chats (storage w) ≠ Unparsable →
  getAllChatsFromLocalStorage w = (Normal (stored w), w).
Proof.
  intros Hr Hp.
  by rewrite getAllChatsFromLocalStorage_run, roomy_available,
    afterRead_parsable.
Qed.

(** X11.  The chat store across a reload: after [setCurrentChat] with a
    non-empty id and [saveMessagesToLocalStorage] without an id argument,
    [initializeChatStore] run on the initial state of the store finds the
    id and the messages again, and so does [getCurrentChatMessages]. *)
Theorem chat_store_survives_reload (now id : string)
    (messages : list Message.t) (w : World Metadata) :
  JS.truthy (Some id) = true →
  roomy w →
  acceptsCurrent (storage w) id = true →
  let w1 := (setCurrentChat (Some id) w).2 in
  let w2 := (saveMessagesToLocalStorage now messages None w1).2 in
  let w3 := (initializeChatStore (with_chatStore initialChatState w2)).2 in
  ChatState.currentChatId (chatStore w3) = Some id ∧
  ChatState.messages (chatStore w3) = messages ∧
  (getCurrentChatMessages w3).1 = Normal messages.
Proof.
  intros Ht Hroomy Hc w1 w2 w3.
  set (chat := {| LocalStorageChat.id := id;
                  LocalStorageChat.urlId := None;
                  LocalStorageChat.description := None;
                  LocalStorageChat.messages := messages;
                  LocalStorageChat.timestamp := now;
                  LocalStorageChat.metadata := @None Metadata |}).
  pose proof Ht as Ht'. simpl in Ht'.
  assert (roomy w1 ∧ currentChat (storage w1) = Some id ∧
          ChatState.currentChatId (chatStore w1) = Some id)
    as (Hroomy1 & Hcur1 & Hid1).
  { unfold w1, setCurrentChat, modify, mbind, js_bind.
    rewrite setCurrentChatId_run; [|by apply roomy_available|done|done].
    split; [|done]. by apply (roomy_storage w). }
  assert (w2 = (saveChatToLocalStorage chat w1).2) as Hw2.
  { unfold w2, saveMessagesToLocalStorage, get, mbind, js_bind, JS.or_else.
    simpl. rewrite Hid1. simpl. by rewrite Ht'. }
  destruct (save_roomy_load chat w1 id Hroomy1)
    as (Hroomy2 & Hst2 & Hcur2 & _ & _).
  assert (chats (storage w2) ≠ Unparsable) as Hp2
    by (rewrite Hw2, save_roomy by done; simpl; discriminate).
  rewrite <- Hw2 in Hroomy2, Hst2, Hcur2. rewrite Hcur1 in Hcur2.
  assert (JS.find (λ c : Chat, String.eqb (LocalStorageChat.id c) id)
                  (stored w2) = Some chat) as Hfind
    by (rewrite Hst2; apply (find_upsert chat)).
  set (v := with_chatStore initialChatState w2) in *.
  assert (roomy v) as Hroomyv by (by apply (roomy_storage w2)).
  assert (chatStore w3 =
            {| ChatState.started := false; ChatState.aborted := false;
               ChatState.showChat := true;
               ChatState.currentChatId := Some id;
               ChatState.messages := messages |} ∧
          storage w3 = storage w2) as [Hstore Hstorage].
  { unfold w3, initializeChatStore. js_run.
    rewrite getCurrentChatId_run, (roomy_available v Hroomyv).
    change (currentChat (storage v)) with (currentChat (storage w2)).
    rewrite Hcur2. cbv beta iota. rewrite Ht.
    rewrite getAllChatsFromLocalStorage_roomy;
      [|by apply (roomy_storage w2)|done].
    change (stored _) with (stored w2). by rewrite Hfind. }
  rewrite Hstore. split; [done|]. split; [done|].
  unfold getCurrentChatMessages. js_run. rewrite Hstore.
  cbv beta iota delta [ChatState.currentChatId]. rewrite Ht.
  rewrite getAllChatsFromLocalStorage_roomy;
    [|by apply (roomy_storage w2); rewrite ?Hstorage|by rewrite Hstorage].
  unfold stored. rewrite Hstorage. fold (stored w2). by rewrite Hfind.
Qed.

(** *** Snapshots and metadata *)

(** X12.  [takeSnapshot] never throws and touches neither the fallback
    store nor the atoms; without a primary store or without a chat id it
    does nothing at all, and otherwise it calls [setSnapshot] once. *)
Theorem takeSnapshot_never_throws (env : Env Metadata) (chatIdx : string)
    (files : FileMap) (_chatId chatSummary : option string) (w : World Metadata) :
  ∃ w',
    takeSnapshot env chatIdx files _chatId chatSummary w = (Normal tt, w') ∧
    storage w' = storage w ∧ chatId w' = chatId w ∧
    description w' = description w ∧ chatMetadata w' = chatMetadata w ∧
    ((db env = None ∨ JS.truthy (chatId w) = false) → w' = w) ∧
    (db env ≠ None → JS.truthy (chatId w) = true →
     snapshots (effects w') = S (snapshots (effects w))).
Proof.
  unfold takeSnapshot, get, try_catch, emit, modify, await, mbind, js_bind.
  destruct (chatId w) as [i|] eqn:Hi; destruct (db env) as [d|]; simpl;
    try destruct (negb (i =? "")%string) eqn:Ht; simpl;
    try destruct (setSnapshot d i _) as [[]|e]; simpl.
  all: eexists; (split; [reflexivity|]); simpl; rewrite ?Hi; simpl.
  all: split_and!; try done.
  all: try (intros [?|Hf]; [done|simpl in Hf; congruence]).
  all: intros Hdb Htr; first
    [ done | simpl in Htr; congruence
    | unfold snapshots;
      rewrite <- ?app_assoc, ?List.filter_app, ?length_app; simpl; lia ].
Qed.

(** X13.  [updateChatMestaData] never throws.  The metadata atom takes the
    new value exactly when there are a primary store and a non-empty chat
    id and the write succeeds; a failed write is shown as a toast and leaves
    the atom as it was.  The fallback store is not written. *)
Theorem updateChatMestaData_sets_on_success (env : Env Metadata)
    (metadata : Metadata) (w : World Metadata) :
  ∃ w',
    updateChatMestaData env metadata w = (Normal tt, w') ∧
    storage w' = storage w ∧
    match db env, chatId w with
    | Some d, Some i =>
        if JS.truthy (Some i) then
          match setMessages d i (initialMessages w) (urlId w) (description w)
                            (Some metadata) with
          | Normal _ =>
              chatMetadata w' = Some metadata ∧
              effects w' = effects w ++
                [SetMessages i (initialMessages w) (urlId w) (description w)
                             (Some metadata)]
          | Throw e =>
              chatMetadata w' = chatMetadata w ∧
              effects w' = effects w ++
                [SetMessages i (initialMessages w) (urlId w) (description w)
                             (Some metadata);
                 ToastError "Failed to update chat metadata";
                 ConsoleError e]
          end
        else w' = w
    | _, _ => w' = w
    end.
Proof.
  unfold updateChatMestaData, get, try_catch, emit, modify, await,
    mbind, js_bind.
  destruct (db env) as [d|]; destruct (chatId w) as [i|] eqn:Hi; simpl;
    try (eexists; split; [reflexivity|]; by rewrite ?Hi).
  destruct (negb (i =? "")%string); simpl;
    [|eexists; split; [reflexivity|]; by rewrite ?Hi].
  destruct (setMessages d i _ _ _ _) as [[]|e]; simpl;
    eexists; (split; [reflexivity|]); simpl; split_and!; try done;
    by rewrite <- ?app_assoc.
Qed.

(** *** Saving the history: what is stored *)

(** As [js_run], and computes the fields of the worlds built on the way;
    the functions of the sources stay folded. *)
Ltac js_simpl :=
  js_run;
  cbn beta iota zeta delta
    [fst snd
     storage chatStore chatId description chatMetadata archivedMessages
     initialMessages ready urlId effects
     with_storage with_chatStore with_chatId with_description
     with_chatMetadata with_archivedMessages with_initialMessages with_ready
     with_urlId with_effects
     usable acceptsChats acceptsCurrent chats currentChat].

Lemma takeSnapshot_effects (env : Env Metadata) (chatIdx : string)
    (files : FileMap) (_chatId chatSummary : option string) (w : World Metadata) :
  ∃ es,
    takeSnapshot env chatIdx files _chatId chatSummary w
      = (Normal tt, with_effects (effects w ++ es) w) ∧
    (JS.truthy (chatId w) = false → es = []).
Proof.
  unfold takeSnapshot, get, try_catch, emit, modify, await, mbind, js_bind,
    with_effects.
  destruct w as [st cs cid desc meta arch init rdy uid eff]. simpl.
  destruct cid as [i|]; destruct (db env) as [d|]; simpl;
    try destruct (negb (i =? "")%string) eqn:Ht; simpl;
    try destruct (setSnapshot d i _) as [[]|e]; simpl.
  all: try (exists []; by rewrite app_nil_r).
  all: eexists; (split; [by rewrite <- ?app_assoc|]); done.
Qed.

Lemma find_upsert_id (chat : Chat) (chats : list Chat) (id : string) :
  LocalStorageChat.id chat = id →
  JS.find (λ c, String.eqb (LocalStorageChat.id c) id) (upsert chat chats)
    = Some chat.
Proof. intros <-. apply find_upsert. Qed.

(** As [js_case], and splits on the answer of the primary store. *)
Ltac js_case' :=
  match goal with
  | |- context [if ?b then _ else _] =>
      lazymatch b with
      | context [if _ then _ else _] => fail
      | _ => destruct b eqn:?
      end
  | |- context [match setMessages ?d ?i ?m ?u ?de ?me with Normal _ => _ | Throw _ => _ end] =>
      destruct (setMessages d i m u de me) as [[]|?]
  end.

Lemma getChatFromLocalStorage_parsed (id : string) (l : list Chat)
    (w : World Metadata) :
  available (storage w) = true → chats (storage w) = Parsed l →
  getChatFromLocalStorage id w =
    (Normal (JS.find (λ c, String.eqb (LocalStorageChat.id c) id) l), w).
Proof.
  intros Hu Hl. rewrite getChatFromLocalStorage_run by done.
  unfold stored, afterRead. by rewrite Hl.
Qed.

(** The save with a chat id, in full: the list the fallback store holds
    afterwards. *)
Lemma storeMessageHistory_with_id (env : Env Metadata)
    (messages : list Message.t) (w : World Metadata) (id : string) :
  chatId w = Some id →
  JS.truthy (Some id) = true →
  List.filter (λ m, negb (noStore m)) messages ≠ [] →
  (∀ d a, db env = Some d → firstArtifact env = Some a →
          JS.truthy (urlId w) = false →
          JS.truthy (Some (Artifact.id a)) = true →
          ∃ u, getUrlId d (Artifact.id a) = Normal u) →
  roomy w →
  ∃ w' saved,
    storeMessageHistory env messages w = (Normal tt, w') ∧
    roomy w' ∧
    chats (storage w') = Parsed (upsert saved (stored w)) ∧
    LocalStorageChat.id saved = id ∧
    LocalStorageChat.messages saved =
      archivedMessages w ++ List.filter (λ m, negb (noStore m)) messages ∧
    LocalStorageChat.metadata saved = chatMetadata w ∧
    chatId w' = Some id.
Proof.
  intros Hid Ht Hkept Hurl [Hu Ha].
  destruct (lastItem_nonempty _ Hkept) as (lastMessage & Hlast).
  assert ((Z.of_nat (length messages) =? 0)%Z = false) as Hlen.
  { destruct messages; [done|]. apply Z.eqb_neq. simpl. lia. }
  unfold storeMessageHistory. rewrite Hlen. clear Hlen Hkept.
  set (kept := List.filter _ messages) in *. clearbody kept.
  js_simpl.
  destruct (firstArtifact env) as [a|] eqn:Hfa; destruct (db env) as [d|] eqn:Hd;
    destruct (JS.truthy (urlId w)) eqn:Hturl;
    try destruct (JS.truthy (Some (Artifact.id a))) eqn:Haid;
    try (destruct (Hurl d a eq_refl eq_refl eq_refl Haid) as [u Hgu]);
    js_simpl; rewrite ?Hgu; js_simpl; rewrite Hlast; js_simpl.
  all: match goal with
       | |- context [takeSnapshot ?e ?a ?b ?c ?d ?x] =>
           destruct (takeSnapshot_effects e a b c d x) as (es & Hts & _);
           rewrite Hts; clear Hts
       end; js_simpl.
  all: repeat (js_simpl; rewrite ?Hid, ?Ht, ?andb_false_r; try js_case').
  all: rewrite save_roomy by (split; [exact Hu | exact Ha]); js_simpl.
  all: eexists; eexists; (split; [reflexivity|]).
  all: by split_and!.
Qed.

(** X14.  With a non-empty chat id, some message to store, a [getUrlId]
    that answers when it is called and a fallback store with room, the
    save ends normally and the fallback store holds, under the chat id, the
    archived messages followed by the messages not annotated [no-store],
    with the current metadata.  This is so with or without a primary
    store, and whether the primary [setMessages] or [setSnapshot] succeeds
    or throws. *)
Theorem storeMessageHistory_mirrors_to_fallback (env : Env Metadata)
    (messages : list Message.t) (w : World Metadata) (id : string) :
  chatId w = Some id →
  JS.truthy (Some id) = true →
  List.filter (λ m, negb (noStore m)) messages ≠ [] →
  (∀ d a, db env = Some d → firstArtifact env = Some a →
          JS.truthy (urlId w) = false →
          JS.truthy (Some (Artifact.id a)) = true →
          ∃ u, getUrlId d (Artifact.id a) = Normal u) →
  roomy w →
  ∃ w' saved,
    storeMessageHistory env messages w = (Normal tt, w') ∧
    getChatFromLocalStorage id w' = (Normal (Some saved), w') ∧
    LocalStorageChat.id saved = id ∧
    LocalStorageChat.messages saved =
      archivedMessages w ++ List.filter (λ m, negb (noStore m)) messages ∧
    LocalStorageChat.metadata saved = chatMetadata w ∧
    chatId w' = Some id.
Proof.
  intros Hid Ht Hkept Hurl Hroomy.
  destruct (storeMessageHistory_with_id env messages w id Hid Ht Hkept Hurl Hroomy)
    as (w' & saved & Hrun & Hu' & Hst & Hsid & Hmsgs & Hmeta & Hid').
  exists w', saved. split_and!; try done.
  rewrite (getChatFromLocalStorage_parsed id _ w' (roomy_available _ Hu') Hst).
  by rewrite (find_upsert_id saved _ id).
Qed.

(** Splits on the next test, answer or optional value the evaluation is
    stuck on. *)
Ltac js_split :=
  match goal with
  | |- context [if ?b then _ else _] =>
      lazymatch b with
      | context [if _ then _ else _] => fail
      | _ => destruct b eqn:?
      end
  | |- context [match ?c with Normal _ => _ | Throw _ => _ end] =>
      lazymatch c with
      | context [if _ then _ else _] => fail
      | Normal _ => fail
      | Throw _ => fail
      | _ => destruct c eqn:?
      end
  | |- context [match ?o with Some _ => _ | None => _ end] =>
      lazymatch o with
      | context [if _ then _ else _] => fail
      | Some _ => fail
      | None => fail
      | _ => destruct o eqn:?
      end
  end.

Lemma snapshots_app (a b : list (Effect Metadata)) :
  snapshots (a ++ b) = (snapshots a + snapshots b)%nat.
Proof. unfold snapshots. by rewrite List.filter_app, length_app. Qed.

(** The fallback store makes no [setSnapshot] call and never throws. *)
Lemma setCurrentChatId_quiet (id : option string) (w : World Metadata) :
  ∃ w', setCurrentChatId id w = (Normal tt, w') ∧
        chatId w' = chatId w ∧ description w' = description w ∧
        chatMetadata w' = chatMetadata w ∧
        snapshots (effects w') = snapshots (effects w).
Proof.
  unfold setCurrentChatId, isLocalStorageAvailable, try_catch,
    setItem_current, removeItem_current, get, modify, emit,
    mbind, js_bind, mret, js_ret.
  destruct (available (storage w)); simpl; [|by eexists].
  destruct id as [s|]; [|by eexists].
  destruct (JS.truthy (Some s)); [|by eexists].
  destruct (acceptsCurrent (storage w) s); eexists; (split; [reflexivity|]);
    simpl; rewrite ?snapshots_app; unfold snapshots; simpl; split_and!;
    try done; lia.
Qed.

Lemma saveChatToLocalStorage_quiet (chat : Chat) (w : World Metadata) :
  ∃ w', saveChatToLocalStorage chat w = (Normal tt, w') ∧
        snapshots (effects w') = snapshots (effects w).
Proof.
  rewrite saveChatToLocalStorage_run. unfold setItem_chats.
  rewrite afterRead_storage.
  assert (snapshots (effects (afterRead w)) = snapshots (effects w)) as Hread.
  { rewrite afterRead_effects, snapshots_app. unfold readError.
    destruct (chats (storage w)); unfold snapshots; simpl; lia. }
  destruct (available (storage w));
    [destruct (acceptsChats (storage w) _)|];
    eexists; (split; [reflexivity|]); simpl; rewrite ?snapshots_app, ?Hread;
    unfold snapshots; simpl; lia.
Qed.

(** X15.  A save that starts without a chat id never calls [setSnapshot],
    however it ends: [takeSnapshot] runs before the id is assigned and
    returns at once. *)
Theorem first_save_takes_no_snapshot (env : Env Metadata)
    (messages : list Message.t) (w : World Metadata) :
  JS.truthy (chatId w) = false →
  snapshots (effects (storeMessageHistory env messages w).2)
    = snapshots (effects w).
Proof.
  intros Hid. unfold storeMessageHistory.
  destruct (Z.of_nat (length messages) =? 0)%Z; [done|].
  set (kept := List.filter _ messages). clearbody kept.
  js_simpl.
  destruct (firstArtifact env) as [a|] eqn:Hfa; destruct (db env) as [d|] eqn:Hd;
    destruct (JS.truthy (urlId w)) eqn:Hturl;
    try destruct (JS.truthy (Some (Artifact.id a))) eqn:Haid;
    try destruct (getUrlId d (Artifact.id a)) as [u|e] eqn:Hgu;
    js_simpl; try done;
    (destruct (JS.lastItem kept) as [lastMessage|]; js_simpl; [|try done]).
  all: try (rewrite ?snapshots_app; unfold snapshots; simpl; lia).
  all: rewrite takeSnapshot_without_id by done; js_simpl.
  all: repeat first
    [ progress js_simpl
    | match goal with
      | |- context [setCurrentChatId ?i ?x] =>
          let H := fresh "Hquiet" in
          destruct (setCurrentChatId_quiet i x) as (? & -> & ? & ? & ? & H)
      | |- context [saveChatToLocalStorage ?c ?x] =>
          let H := fresh "Hquiet" in
          destruct (saveChatToLocalStorage_quiet c x) as (? & -> & H)
      end
    | js_split ].
  all: repeat (rewrite ?snapshots_app; js_simpl;
               try match goal with
                   | H : snapshots (effects _) = _ |- _ => rewrite H; clear H
                   end).
  all: unfold snapshots; simpl; lia.
Qed.

(** X16.  The first save of a new chat without a primary store: with no
    chat id, no initial messages and some message to store, the chat id
    becomes what [Date.now().toString()] answers, the pointer to the
    current chat is set to it, the chat is stored under it in the fallback
    store, and nothing is logged or shown but the error of reading an
    unparsable value of the fallback store, if there is one. *)
Theorem first_save_assigns_the_id (env : Env Metadata)
    (messages : list Message.t) (w : World Metadata) :
  let id := dateNow env in
  db env = None →
  JS.truthy (chatId w) = false →
  initialMessages w = [] →
  List.filter (λ m, negb (noStore m)) messages ≠ [] →
  JS.truthy (Some id) = true →
  roomy w →
  acceptsCurrent (storage w) id = true →
  ∃ w' saved,
    storeMessageHistory env messages w = (Normal tt, w') ∧
    chatId w' = Some id ∧
    (getCurrentChatId w').1 = Normal (Some id) ∧
    (getChatFromLocalStorage id w').1 = Normal (Some saved) ∧
    LocalStorageChat.messages saved =
      archivedMessages w ++ List.filter (λ m, negb (noStore m)) messages ∧
    effects w' = effects w ++ readError w.
Proof.
  intros id Hdb Hid Hinit Hkept Ht [Hu Ha] Hc. unfold id in *. clear id.
  destruct (lastItem_nonempty _ Hkept) as (lastMessage & Hlast).
  assert ((Z.of_nat (length messages) =? 0)%Z = false) as Hlen.
  { destruct messages; [done|]. apply Z.eqb_neq. simpl. lia. }
  unfold storeMessageHistory. rewrite Hlen, Hdb. clear Hlen Hkept.
  set (kept := List.filter _ messages) in *. clearbody kept.
  js_simpl. rewrite Hinit.
  destruct (firstArtifact env) as [a|] eqn:Hfa; js_simpl; rewrite Hlast; js_simpl;
    (rewrite takeSnapshot_without_id by done); js_simpl.
  all: repeat (js_simpl; rewrite ?Hid; try js_case').
  all: try (exfalso; discriminate).
  all: rewrite setCurrentChatId_run by first [apply Hu | exact Ht | exact Hc];
    js_simpl; rewrite Ht; js_simpl.
  all: rewrite save_roomy by (split; [exact Hu | exact Ha]); js_simpl.
  all: eexists; eexists; (split; [reflexivity|]).
  all: rewrite getChatFromLocalStorage_answer, getCurrentChatId_run.
  all: unfold available, stored, readError; js_simpl.
  all: rewrite !Hu; js_simpl.
  all: rewrite (find_upsert_id _ _ (dateNow env)) by reflexivity.
  all: by split_and!.
Qed.

(** *** Loading, then saving *)

Lemma slice_subseteq {A} (a b : Z) (l : list A) (x : A) :
  x ∈ JS.slice a b l → x ∈ l.
Proof.
  unfold JS.slice. intros Hx.
  apply (subseteq_take _ _ x) in Hx. by apply (subseteq_drop _ _ x) in Hx.
Qed.

Lemma filter_keeps_all {A} (p : A → bool) (l : list A) :
  (∀ x, x ∈ l → p x = true) → List.filter p l = l.
Proof.
  induction l as [|y l IH]; intros Hall; simpl; [done|].
  rewrite (Hall y) by left. f_equal. apply IH. intros x Hx. apply Hall. by right.
Qed.

(** The archive and the part of the chat in the window make up
    [messages[0 .. endingIdx)]. *)
Lemma archive_then_window (messages : list Message.t)
    (snapshot : option Snapshot.t) (rewindId : option string) :
  let s := startingIdx messages snapshot rewindId in
  let e := endingIdx messages rewindId in
  (if (0 <=? s)%Z then JS.slice 0 (s + 1) messages else [])
    ++ JS.slice (s + 1) e messages
  = JS.slice 0 e messages.
Proof.
  intros s e. pose proof (endingIdx_range messages rewindId).
  destruct (startingIdx_cases messages snapshot rewindId) as [E|[E Hr]];
    fold s in E; rewrite E.
  - done.
  - fold e in Hr.
    destruct (Z.leb_spec0 0 (snapshotIndex messages snapshot)); [|lia].
    apply slice_split; lia.
Qed.

(** The atoms and the url id after [processStoredMessages]. *)
Lemma processStoredMessages_state (env : Env Metadata)
    (storedMessages : ChatHistoryItem.t Metadata)
    (snapshot : option Snapshot.t) (w : World Metadata) :
  let w' := (processStoredMessages env storedMessages snapshot w).2 in
  urlId w' = ChatHistoryItem.urlId storedMessages ∧
  description w' = ChatHistoryItem.description storedMessages ∧
  chatMetadata w' = ChatHistoryItem.metadata storedMessages ∧
  chatStore w' = chatStore w.
Proof.
  unfold processStoredMessages.
  set (messages := ChatHistoryItem.messages storedMessages).
  set (s := startingIdx messages snapshot (rewindTo env)).
  destruct (Z.ltb_spec0 0 s) as [Hs|Hs]; [|done].
  destruct (startingIdx_cases messages snapshot (rewindTo env))
    as [E|[E Hr]]; fold s in E; [lia|].
  destruct (snapshotIndex_defined messages snapshot) as (m & Hm & Hid); [lia|].
  unfold mbind, js_bind, setArchivedMessages, modify. simpl.
  rewrite Hm. done.
Qed.

Lemma restoreMessages_not_stored (env : Env Metadata)
    (snapshot : option Snapshot.t) (anchorId : string) :
  List.filter (λ m, negb (noStore m)) (restoreMessages env snapshot anchorId) = [].
Proof. done. Qed.

(** X17.  Loading a stored chat and saving the loaded window with new
    messages: when no stored message is annotated [no-store] and some new
    message is to be stored, the fallback store then holds
    [messages[0 .. endingIdx)] followed by the new messages to store.  The
    synthetic restore messages are not stored, the archived messages are,
    and the messages after the rewind target are dropped. *)
Theorem reload_then_save_keeps_history (env : Env Metadata)
    (storedMessages : ChatHistoryItem.t Metadata)
    (snapshot : option Snapshot.t) (new : list Message.t) (w : World Metadata) :
  let messages := ChatHistoryItem.messages storedMessages in
  let id := ChatHistoryItem.id storedMessages in
  JS.truthy (Some id) = true →
  (∀ m, m ∈ messages → noStore m = false) →
  List.filter (λ m, negb (noStore m)) new ≠ [] →
  (∀ d a, db env = Some d → firstArtifact env = Some a →
          JS.truthy (ChatHistoryItem.urlId storedMessages) = false →
          JS.truthy (Some (Artifact.id a)) = true →
          ∃ u, getUrlId d (Artifact.id a) = Normal u) →
  roomy w →
  ∃ w1 w2 saved,
    processStoredMessages env storedMessages snapshot w = (Normal tt, w1) ∧
    storeMessageHistory env (initialMessages w1 ++ new) w1 = (Normal tt, w2) ∧
    getChatFromLocalStorage id w2 = (Normal (Some saved), w2) ∧
    LocalStorageChat.messages saved =
      JS.slice 0 (endingIdx messages (rewindTo env)) messages
        ++ List.filter (λ m, negb (noStore m)) new.
Proof.
  intros messages id Ht Hclean Hnew Hurl Hroomy.
  destruct (processStoredMessages_run env storedMessages snapshot w)
    as (w1 & Hrun & Harch & Hinit & _ & Hst & Hid & _).
  fold messages in Harch, Hinit.
  pose proof (processStoredMessages_state env storedMessages snapshot w)
    as (Hurl1 & _). rewrite Hrun in Hurl1. simpl in Hurl1.
  set (window := JS.slice (startingIdx messages snapshot (rewindTo env) + 1)
                          (endingIdx messages (rewindTo env)) messages) in *.
  assert (List.filter (λ m, negb (noStore m)) (initialMessages w1 ++ new)
          = window ++ List.filter (λ m, negb (noStore m)) new) as Hkept.
  { assert (List.filter (λ m, negb (noStore m)) (prepended env messages snapshot)
            = []) as Hpre.
    { unfold prepended. destruct (_ <? _)%Z; [|done].
      apply restoreMessages_not_stored. }
    assert (List.filter (λ m, negb (noStore m)) window = window) as Hwin.
    { apply filter_keeps_all. intros m Hm%slice_subseteq.
      by rewrite (Hclean m Hm). }
    by rewrite Hinit, !List.filter_app, Hpre, Hwin. }
  destruct (storeMessageHistory_with_id env (initialMessages w1 ++ new) w1 id)
    as (w2 & saved & Hrun2 & Hu2 & Hst2 & Hsid & Hmsgs & _).
  - done.
  - done.
  - rewrite Hkept. intros E. apply app_eq_nil in E as [_ E]. done.
  - intros d a Hd Ha Hf Hi. apply (Hurl d a Hd Ha); [|done]. by rewrite <- Hurl1.
  - destruct Hroomy as [Hu Ha]. split; intros; by rewrite Hst.
  - exists w1, w2, saved. split_and!; [done..| |].
    + rewrite (getChatFromLocalStorage_parsed id _ w2
                 (roomy_available _ Hu2) Hst2).
      by rewrite (find_upsert_id saved _ id).
    + rewrite Hmsgs, Hkept, Harch, app_assoc. f_equal.
      apply archive_then_window.
Qed.

(** *** Loading a chat *)

(** Runs the plumbing of both monads. *)
Ltac ui_run :=
  cbv beta iota delta
    [mbind ui_bind mret ui_ret lift signal ui_try_catch
     js_bind js_ret get await modify emit throw defined try_catch
     setReady setInitialMessages setUrlId negb andb];
  cbn beta iota zeta delta
    [world events fst snd
     storage chatStore chatId description chatMetadata archivedMessages
     initialMessages ready urlId effects
     with_storage with_chatStore with_chatId with_description
     with_chatMetadata with_archivedMessages with_initialMessages with_ready
     with_urlId with_effects].

(** Reading a chat never throws and changes nothing but the log, where an
    available store with an unparsable value leaves the error of the
    read. *)
Lemma getChatFromLocalStorage_eq (id : string) (w : World Metadata) :
  getChatFromLocalStorage id w =
    (Normal (if available (storage w)
             then JS.find (λ c, String.eqb (LocalStorageChat.id c) id) (stored w)
             else None),
     with_effects
       (effects w ++ if available (storage w) then readError w else []) w).
Proof.
  destruct (available (storage w)) eqn:Hu.
  - by rewrite getChatFromLocalStorage_run, afterRead_eq.
  - unfold getChatFromLocalStorage, isLocalStorageAvailable, get,
      mbind, js_bind, mret, js_ret.
    rewrite Hu. simpl. unfold with_effects. rewrite app_nil_r. by destruct w.
Qed.

Lemma getChatFromLocalStorage_reads (id : string) (w : World Metadata) :
  ∃ r, (getChatFromLocalStorage id w).1 = Normal r.
Proof. rewrite getChatFromLocalStorage_eq. by eexists. Qed.

Lemma getChatFromLocalStorage_with_effects (id : string)
    (es : list (Effect Metadata)) (w : World Metadata) :
  getChatFromLocalStorage id (with_effects es w) =
    ((getChatFromLocalStorage id w).1,
     with_effects
       (es ++ if available (storage w) then readError w else []) w).
Proof. by rewrite !getChatFromLocalStorage_eq. Qed.

(** X18.  When the primary store answers with a chat that has messages,
    [loadChat] does what [processStoredMessages] does with that chat and
    its snapshot and nothing else: the fallback store is not consulted and
    nothing is signalled to the page. *)
Theorem loadChat_prefers_the_primary_store (env : Env Metadata)
    (calls : DbCalls Metadata) (p : Page Metadata)
    (stored : ChatHistoryItem.t Metadata) (snapshot : option Snapshot.t) :
  JS.truthy (Some (mixedId env)) = true →
  primaryHit env calls stored snapshot →
  loadChat env calls p =
    (Normal tt,
     {| world := (processStoredMessages env stored snapshot (world p)).2;
        events := events p |}).
Proof.
  intros Ht (Hdb & Hm & Hs & Hne). unfold loadChat. rewrite Ht.
  destruct (db env) as [d|]; [|done].
  assert ((0 <? Z.of_nat (length (ChatHistoryItem.messages stored)))%Z = true)
    as Hlen.
  { destruct (ChatHistoryItem.messages stored); [done|]. apply Z.ltb_lt. simpl. lia. }
  ui_run. rewrite Hm, Hs. ui_run. rewrite Hlen. ui_run.
  destruct (processStoredMessages_run env stored snapshot (world p))
    as (w' & Hrun & _).
  rewrite Hrun. by ui_run.
Qed.

(** What [loadChat] has done when the primary store did not answer with a
    chat that has messages: the page is as before, but for the log of a
    failed read. *)
Lemma loadChat_primary_miss (env : Env Metadata) (calls : DbCalls Metadata)
    (p : Page Metadata) (A : Type) (k : bool → Ui Metadata A) :
  (∀ stored snapshot, ¬ primaryHit env calls stored snapshot) →
  ∃ p1 logged,
    ((match db env with
      | Some _ =>
          ui_try_catch
            (storedMessages ← lift (await (getMessages calls (mixedId env)));
             snapshot ← lift (await (getSnapshot calls (mixedId env)));
             match storedMessages with
             | Some stored =>
                 if (0 <? Z.of_nat (length (ChatHistoryItem.messages stored)))%Z
                 then lift (processStoredMessages env stored snapshot);;
                      mret true
                 else mret false
             | None => mret false
             end)
            (λ error,
               lift (emit (ConsoleError "Error loading from IndexedDB:"));;
               signal (LogError "Failed to load from IndexedDB");;
               mret false)
      | None => mret false
      end) ≫= k) p = k false p1 ∧
    world p1 = with_effects (effects (world p) ++
                 (if bool_decide (logged = []) then []
                  else [ConsoleError "Error loading from IndexedDB:"])) (world p) ∧
    events p1 = events p ++ logged ∧
    (logged = [] ∨ logged = [LogError "Failed to load from IndexedDB"]) ∧
    (db env = None → logged = []).
Proof.
  intros Hmiss. destruct p as [w ev].
  assert (w = with_effects (effects w ++ []) w) as Hw
    by (destruct w; unfold with_effects; simpl; by rewrite app_nil_r).
  destruct (db env) as [d|] eqn:Hd.
  - destruct (getMessages calls (mixedId env)) as [[stored|]|e] eqn:Hm;
      destruct (getSnapshot calls (mixedId env)) as [snapshot|e'] eqn:Hs;
      ui_run; rewrite ?Hm, ?Hs; ui_run.
    + destruct (0 <? Z.of_nat (length (ChatHistoryItem.messages stored)))%Z eqn:Hlen.
      * exfalso. apply (Hmiss stored snapshot). split_and!; try done.
        -- by rewrite Hd.
        -- intros E. rewrite E in Hlen. done.
      * ui_run. exists {| world := w; events := ev |}, [].
        split_and!; [done|exact Hw|by rewrite app_nil_r|by left|done].
    + eexists {| world := _; events := _ |}, [_]. split; [reflexivity|].
      split_and!; [done|done|by right|done].
    + exists {| world := w; events := ev |}, [].
      split_and!; [done|exact Hw|by rewrite app_nil_r|by left|done].
    + eexists {| world := _; events := _ |}, [_]. split; [reflexivity|].
      split_and!; [done|done|by right|done].
    + eexists {| world := _; events := _ |}, [_]. split; [reflexivity|].
      split_and!; [done|done|by right|done].
    + eexists {| world := _; events := _ |}, [_]. split; [reflexivity|].
      split_and!; [done|done|by right|done].
  - ui_run. exists {| world := w; events := ev |}, [].
    split_and!; [done|exact Hw|by rewrite app_nil_r|by left|done].
Qed.

(** Showing the copy of the fallback store. *)
Lemma loadChat_local (env : Env Metadata) (calls : DbCalls Metadata)
    (p : Page Metadata) (chat : Chat) :
  JS.truthy (Some (mixedId env)) = true →
  (∀ stored snapshot, ¬ primaryHit env calls stored snapshot) →
  (getChatFromLocalStorage (mixedId env) (world p)).1 = Normal (Some chat) →
  LocalStorageChat.messages chat ≠ [] →
  ∃ p' logged,
    loadChat env calls p = (Normal tt, p') ∧
    initialMessages (world p') = LocalStorageChat.messages chat ∧
    chatId (world p') = Some (LocalStorageChat.id chat) ∧
    urlId (world p') =
      JS.or_else (LocalStorageChat.urlId chat) (Some (LocalStorageChat.id chat)) ∧
    chatMetadata (world p') = LocalStorageChat.metadata chat ∧
    ready (world p') = true ∧
    storage (world p') = storage (world p) ∧
    events p' = events p ++ logged ∧
    (logged = [] ∨ logged = [LogError "Failed to load from IndexedDB"]) ∧
    (db env = None → logged = []).
Proof.
  intros Ht Hmiss Hlocal Hne. unfold loadChat. rewrite Ht.
  cbv beta iota zeta delta [negb].
  edestruct (loadChat_primary_miss env calls p unit) as (p1 & logged & Hrun & Hw & Hev & Hlog & Hnone);
    [exact Hmiss|].
  rewrite Hrun. clear Hrun.
  assert ((0 <? Z.of_nat (length (LocalStorageChat.messages chat)))%Z = true)
    as Hlen.
  { destruct (LocalStorageChat.messages chat); [done|]. apply Z.ltb_lt. simpl. lia. }
  destruct p1 as [w1 ev1]. simpl in Hw, Hev. subst w1 ev1.
  ui_run. rewrite getChatFromLocalStorage_with_effects, Hlocal. ui_run.
  rewrite Hlen. unfold processLocalStorageChat. ui_run.
  eexists _, logged. split; [reflexivity|]. by split_and!.
Qed.

(** X19.  When the primary store is absent, throws on the read, or has no
    chat with messages, and the fallback store holds a chat with messages
    under the id, [loadChat] shows that chat: its messages, id, url id (the
    id when there is none) and metadata.  It ends normally and ready,
    signals no navigation, and a failed primary read is only logged. *)
Theorem loadChat_falls_back (env : Env Metadata) (calls : DbCalls Metadata)
    (p : Page Metadata) (chat : Chat) :
  JS.truthy (Some (mixedId env)) = true →
  (∀ stored snapshot, ¬ primaryHit env calls stored snapshot) →
  (getChatFromLocalStorage (mixedId env) (world p)).1 = Normal (Some chat) →
  LocalStorageChat.messages chat ≠ [] →
  ∃ p' logged,
    loadChat env calls p = (Normal tt, p') ∧
    initialMessages (world p') = LocalStorageChat.messages chat ∧
    chatId (world p') = Some (LocalStorageChat.id chat) ∧
    urlId (world p') =
      JS.or_else (LocalStorageChat.urlId chat) (Some (LocalStorageChat.id chat)) ∧
    chatMetadata (world p') = LocalStorageChat.metadata chat ∧
    ready (world p') = true ∧
    storage (world p') = storage (world p) ∧
    events p' = events p ++ logged ∧
    (logged = [] ∨ logged = [LogError "Failed to load from IndexedDB"]).
Proof.
  intros Ht Hmiss Hlocal Hne.
  destruct (loadChat_local env calls p chat Ht Hmiss Hlocal Hne)
    as (p' & logged & Hrun & Hinit & Hcid & Hurl & Hmeta & Hready & Hst & Hev
        & Hlog & _).
  by exists p', logged.
Qed.

(** X20.  When neither store holds a chat with messages under the id,
    [loadChat] asks the router to replace the page by [/], ends normally
    and ready, and leaves the messages, the chat id and the fallback store
    as they were. *)
Theorem loadChat_not_found (env : Env Metadata) (calls : DbCalls Metadata)
    (p : Page Metadata) :
  JS.truthy (Some (mixedId env)) = true →
  (∀ stored snapshot, ¬ primaryHit env calls stored snapshot) →
  (∀ chat, (getChatFromLocalStorage (mixedId env) (world p)).1 = Normal (Some chat) →
           LocalStorageChat.messages chat = []) →
  ∃ p' logged,
    loadChat env calls p = (Normal tt, p') ∧
    events p' = events p ++ logged ++ [Navigate "/" true] ∧
    (logged = [] ∨ logged = [LogError "Failed to load from IndexedDB"]) ∧
    ready (world p') = true ∧
    initialMessages (world p') = initialMessages (world p) ∧
    archivedMessages (world p') = archivedMessages (world p) ∧
    chatId (world p') = chatId (world p) ∧
    storage (world p') = storage (world p).
Proof.
  intros Ht Hmiss Hlocal. unfold loadChat. rewrite Ht.
  cbv beta iota zeta delta [negb].
  edestruct (loadChat_primary_miss env calls p unit)
    as (p1 & logged & Hrun & Hw & Hev & Hlog & _); [exact Hmiss|].
  rewrite Hrun. clear Hrun.
  destruct p1 as [w1 ev1]. simpl in Hw, Hev. subst w1 ev1.
  ui_run. rewrite getChatFromLocalStorage_with_effects.
  destruct (getChatFromLocalStorage_reads (mixedId env) (world p)) as [r Hr].
  rewrite Hr in *. ui_run.
  destruct r as [chat|].
  - rewrite (Hlocal chat eq_refl). ui_run.
    eexists _, logged. split; [reflexivity|]. simpl.
    by rewrite app_assoc.
  - ui_run. eexists _, logged. split; [reflexivity|]. simpl.
    by rewrite app_assoc.
Qed.

(** X21.  [loadChat] never throws, always ends with [ready] set, and never
    writes the fallback store: without an id, with a chat from either
    store, and when nothing is found or a store fails. *)
Theorem loadChat_always_ends_ready (env : Env Metadata)
    (calls : DbCalls Metadata) (p : Page Metadata) :
  ∃ p',
    loadChat env calls p = (Normal tt, p') ∧
    ready (world p') = true ∧
    storage (world p') = storage (world p).
Proof.
  unfold loadChat. destruct (JS.truthy (Some (mixedId env))); ui_run;
    [|eexists; split; [reflexivity|]; done].
  destruct (db env) as [d|];
    [destruct (getMessages calls (mixedId env)) as [[stored|]|e];
     destruct (getSnapshot calls (mixedId env)) as [snapshot|e'];
     ui_run;
     try destruct (0 <? Z.of_nat (length (ChatHistoryItem.messages stored)))%Z;
     ui_run|ui_run].
  all: try (destruct (processStoredMessages_run env stored snapshot (world p))
              as (w' & Hrun & _ & _ & _ & Hst & _ & Hready);
            rewrite Hrun; ui_run; eexists; split; [reflexivity|]; done).
  all: rewrite getChatFromLocalStorage_eq; ui_run.
  all: destruct (available (storage (world p)));
    [destruct (JS.find _ _) as [chat|];
     [destruct (0 <? Z.of_nat (length (LocalStorageChat.messages chat)))%Z|]|];
    unfold processLocalStorageChat; ui_run.
  all: eexists; split; [reflexivity|]; done.
Qed.

(** X22.  Without a primary store, what [storeMessageHistory] saves under
    the chat id is what [loadChat] shows for that id in a later session
    with the same fallback store: the archived messages followed by the
    messages to store, under the same chat id, with no navigation. *)
Theorem fallback_only_save_then_load (env env' : Env Metadata)
    (calls : DbCalls Metadata) (messages : list Message.t)
    (w : World Metadata) (p : Page Metadata) (id : string) :
  db env = None → db env' = None →
  mixedId env' = id →
  chatId w = Some id →
  JS.truthy (Some id) = true →
  List.filter (λ m, negb (noStore m)) messages ≠ [] →
  roomy w →
  storage (world p) = storage (storeMessageHistory env messages w).2 →
  ∃ p',
    loadChat env' calls p = (Normal tt, p') ∧
    initialMessages (world p') =
      archivedMessages w ++ List.filter (λ m, negb (noStore m)) messages ∧
    chatId (world p') = Some id ∧
    events p' = events p.
Proof.
  intros Hdb Hdb' Hmid Hid Ht Hkept Hroomy Hstorage.
  destruct (storeMessageHistory_with_id env messages w id)
    as (w' & saved & Hrun & Hu' & Hst & Hsid & Hmsgs & _); try done.
  { intros d a Hd. by rewrite Hdb in Hd. }
  rewrite Hrun in Hstorage. simpl in Hstorage.
  assert ((getChatFromLocalStorage (mixedId env') (world p)).1
          = Normal (Some saved)) as Hlocal.
  { rewrite getChatFromLocalStorage_answer. unfold available, stored.
    rewrite Hstorage, (proj1 Hu'), Hst, Hmid.
    by rewrite (find_upsert_id saved _ id). }
  destruct (loadChat_local env' calls p saved)
    as (p' & logged & Hload & Hinit & Hcid & _ & _ & _ & _ & Hev & _ & Hnone).
  - by rewrite Hmid.
  - intros stored snapshot [Hd _]. by apply Hd.
  - done.
  - rewrite Hmsgs. intros E. apply app_eq_nil in E as [_ E]. done.
  - exists p'. split_and!; [done|by rewrite Hinit|by rewrite Hcid, Hsid|].
    by rewrite Hev, (Hnone Hdb'), app_nil_r.
Qed.

(** *** Duplicating a chat *)

(** X23.  Without a primary store, duplicating a chat found in the
    fallback store stores a copy under the id [Date.now().toString()], with
    the same messages, url id and metadata and the description followed by
    [(copy)], then navigates to the copy and shows the success toast; the
    original stays as it was unless the new id is its own. *)
Theorem duplicateCurrentChat_copies (env : Env Metadata)
    (calls : DbCalls Metadata) (listItemId : string) (p : Page Metadata)
    (chat : Chat) :
  let target :=
    if JS.truthy (Some (mixedId env)) then mixedId env else listItemId in
  let newId := dateNow env in
  db env = None →
  JS.truthy (Some target) = true →
  roomy (world p) →
  JS.find (λ c, String.eqb (LocalStorageChat.id c) target) (stored (world p))
    = Some chat →
  ∃ p' copy,
    duplicateCurrentChat env calls listItemId p = (Normal tt, p') ∧
    (getChatFromLocalStorage newId (world p')).1 = Normal (Some copy) ∧
    LocalStorageChat.messages copy = LocalStorageChat.messages chat ∧
    LocalStorageChat.urlId copy = LocalStorageChat.urlId chat ∧
    LocalStorageChat.metadata copy = LocalStorageChat.metadata chat ∧
    LocalStorageChat.description copy =
      Some (match LocalStorageChat.description chat with
            | Some d => if JS.truthy (Some d) then d else "Chat"
            | None => "Chat"
            end +:+ " (copy)") ∧
    events p' = events p ++ [Navigate ("/chat/" +:+ newId) false;
                             ToastSuccess "Chat duplicated successfully"] ∧
    effects (world p') = effects (world p) ∧
    (newId ≠ target →
     (getChatFromLocalStorage target (world p')).1 = Normal (Some chat)).
Proof.
  intros target newId Hdb Ht Hroomy Hfind. pose proof Hroomy as [Hu Ha].
  assert (readError (world p) = []) as Hlog.
  { unfold readError. unfold stored in Hfind.
    by destruct (chats (storage (world p))). }
  assert (chats (storage (world p)) ≠ Unparsable) as Hp.
  { intros E. unfold stored in Hfind. by rewrite E in Hfind. }
  unfold duplicateCurrentChat. rewrite Hdb. fold target.
  assert (negb (JS.truthy (Some (mixedId env)))
          && negb (JS.truthy (Some listItemId)) = false) as Hguard.
  { unfold target in Ht. destruct (JS.truthy (Some (mixedId env))); [done|].
    by rewrite Ht. }
  rewrite Hguard. ui_run.
  rewrite getAllChatsFromLocalStorage_roomy by done. ui_run.
  rewrite Hfind. ui_run.
  rewrite save_roomy by done. ui_run.
  eexists _, _. split; [reflexivity|].
  rewrite !getChatFromLocalStorage_answer. unfold available. simpl.
  rewrite !Hu. unfold stored at 1 3. simpl.
  rewrite (find_upsert_id _ _ newId) by reflexivity.
  split_and!; try done.
  - by rewrite <- app_assoc.
  - by rewrite Hlog, app_nil_r.
  - intros Hne. rewrite find_upsert_other
      by (simpl; intros E; apply Hne; symmetry; exact E). by rewrite Hfind.
Qed.

(** X24.  Without a primary store, duplicating an id that the fallback
    store does not hold shows [Chat not found] and does nothing else: no
    copy is stored and the page does not navigate.  Before the toast the
    error of reading an unparsable value of the store is logged, if there
    is one. *)
Theorem duplicateCurrentChat_not_found (env : Env Metadata)
    (calls : DbCalls Metadata) (listItemId : string) (p : Page Metadata) :
  let target :=
    if JS.truthy (Some (mixedId env)) then mixedId env else listItemId in
  db env = None →
  JS.truthy (Some target) = true →
  available (storage (world p)) = true →
  JS.find (λ c : Chat, String.eqb (LocalStorageChat.id c) target)
          (stored (world p)) = None →
  ∃ p',
    duplicateCurrentChat env calls listItemId p = (Normal tt, p') ∧
    storage (world p') = storage (world p) ∧
    effects (world p') =
      effects (world p) ++ readError (world p)
        ++ [ToastError "Chat not found"] ∧
    events p' = events p.
Proof.
  intros target Hdb Ht Hu Hfind.
  unfold duplicateCurrentChat. rewrite Hdb. fold target.
  assert (negb (JS.truthy (Some (mixedId env)))
          && negb (JS.truthy (Some listItemId)) = false) as Hguard.
  { unfold target in Ht. destruct (JS.truthy (Some (mixedId env))); [done|].
    by rewrite Ht. }
  rewrite Hguard. ui_run.
  rewrite getAllChatsFromLocalStorage_run, Hu, afterRead_eq. ui_run.
  rewrite Hfind. ui_run.
  eexists. split; [reflexivity|]. simpl. by rewrite app_assoc.
Qed.

(** *** The resolver at its bounds *)

(** X25.  [processStoredMessages] never throws (the entry
    [messages[snapshotIndex]] exists wherever it is read), sets the chat
    id to the stored one, ends ready and leaves the fallback store alone. *)
Theorem processStoredMessages_never_throws (env : Env Metadata)
    (storedMessages : ChatHistoryItem.t Metadata)
    (snapshot : option Snapshot.t) (w : World Metadata) :
  ∃ w',
    processStoredMessages env storedMessages snapshot w = (Normal tt, w') ∧
    chatId w' = Some (ChatHistoryItem.id storedMessages) ∧
    ready w' = true ∧
    storage w' = storage w ∧
    chatStore w' = chatStore w.
Proof.
  destruct (processStoredMessages_run env storedMessages snapshot w)
    as (w' & Hrun & _ & _ & _ & Hst & Hid & Hready).
  pose proof (processStoredMessages_state env storedMessages snapshot w)
    as (_ & _ & _ & Hcs).
  rewrite Hrun in Hcs. by exists w'.
Qed.

(** X26.  A snapshot anchored at the last message, which is where
    [storeMessageHistory] takes it: with distinct ids, at least two
    messages and no rewind target, the whole chat is archived and the
    window is the restore pair alone. *)
Theorem snapshot_at_last_message (env : Env Metadata)
    (storedMessages : ChatHistoryItem.t Metadata)
    (S : Snapshot.t) (m : Message.t) (w : World Metadata) :
  let messages := ChatHistoryItem.messages storedMessages in
  rewindTo env = None →
  NoDup (Message.id <$> messages) →
  last messages = Some m →
  Message.id m = Snapshot.chatIndex S →
  (2 ≤ length messages)%nat →
  ∃ w',
    processStoredMessages env storedMessages (Some S) w = (Normal tt, w') ∧
    archivedMessages w' = messages ∧
    initialMessages w' = restoreMessages env (Some S) (Snapshot.chatIndex S).
Proof.
  intros messages Hrw Hnd Hlast Hid Hlen.
  set (n := length messages) in *.
  assert (messages !! (n - 1)%nat = Some m) as Hm
    by (rewrite <- Hlast, last_lookup; f_equal; lia).
  assert (snapshotIndex messages (Some S) = Z.of_nat (n - 1)) as Hsi.
  { apply (findIndex_first _ _ (n - 1) m); [done|by apply String.eqb_eq|].
    intros j y Hj Hy. apply String.eqb_neq. simpl. rewrite <- Hid. intros E.
    assert (j = (n - 1)%nat); [|lia].
    apply (NoDup_lookup _ _ _ (Message.id m) Hnd);
      rewrite list_lookup_fmap; [rewrite Hy; simpl; by rewrite E|by rewrite Hm]. }
  assert (endingIdx messages (rewindTo env) = Z.of_nat n) as He
    by (by rewrite Hrw).
  assert (startingIdx messages (Some S) (rewindTo env) = Z.of_nat (n - 1)) as Hs.
  { unfold startingIdx. rewrite He, Hsi, Hrw. unfold JS.at_.
    destruct (Z.ltb_spec0 (Z.of_nat (n - 1)) 0); [lia|].
    rewrite Nat2Z.id, Hm. simpl. rewrite andb_false_r.
    destruct (Z.leb_spec0 0 (Z.of_nat (n - 1))); [|lia].
    destruct (Z.ltb_spec0 (Z.of_nat (n - 1)) (Z.of_nat n)); [done|lia]. }
  destruct (processStoredMessages_run env storedMessages (Some S) w)
    as (w' & Hrun & Harch & Hinit & _).
  fold messages in Harch, Hinit. unfold prepended in Hinit.
  rewrite Hs, He in *.
  destruct (Z.leb_spec0 0 (Z.of_nat (n - 1))); [|lia].
  destruct (Z.ltb_spec0 0 (Z.of_nat (n - 1))); [|lia].
  exists w'. split_and!; [done| |].
  - rewrite Harch. replace (Z.of_nat (n - 1) + 1)%Z with (Z.of_nat n) by lia.
    apply slice_all.
  - rewrite Hinit, slice_in_range by lia.
    replace (Z.to_nat (Z.of_nat n - (Z.of_nat (n - 1) + 1))) with 0%nat by lia.
    rewrite take_0. apply app_nil_r.
Qed.

(** X27.  A snapshot anchored at the first message ([snapshotIndex = 0]):
    that message is archived, the window starts at the second message, and
    no restore pair is put in front, the test for it being
    [startingIdx > 0]. *)
Theorem snapshot_at_first_message (env : Env Metadata)
    (storedMessages : ChatHistoryItem.t Metadata)
    (snapshot : option Snapshot.t) (w : World Metadata) :
  let messages := ChatHistoryItem.messages storedMessages in
  snapshotIndex messages snapshot = 0%Z →
  (0 < endingIdx messages (rewindTo env))%Z →
  ∃ w',
    processStoredMessages env storedMessages snapshot w = (Normal tt, w') ∧
    archivedMessages w' = take 1 messages ∧
    initialMessages w' =
      JS.slice 1 (endingIdx messages (rewindTo env)) messages ∧
    effects w' = effects w.
Proof.
  intros messages Hsi He.
  pose proof (endingIdx_range messages (rewindTo env)) as Hrange.
  assert (startingIdx messages snapshot (rewindTo env) = 0%Z) as Hs.
  { unfold startingIdx. rewrite Hsi. simpl.
    by destruct (Z.ltb_spec0 0 (endingIdx messages (rewindTo env))). }
  destruct (processStoredMessages_run env storedMessages snapshot w)
    as (w' & Hrun & Harch & Hinit & Heff & _).
  fold messages in Harch, Hinit, Heff. unfold prepended in Hinit.
  rewrite Hs in *. simpl in *.
  exists w'. split_and!; [done| |done|by rewrite app_nil_r in Heff].
  rewrite Harch, slice_prefix by lia. done.
Qed.

(** Finds an effect in a list built with [++] and [::]. *)
Ltac among :=
  solve [ apply list_elem_of_here
        | apply list_elem_of_further; among
        | apply elem_of_app; right; among
        | apply elem_of_app; left; among ].

(** X28.  The save that obtains the url id: with a primary store, a first
    artifact, no url id yet and a [getUrlId] that answers [u], the URL is
    replaced by one whose pathname is what the assignment of [/chat/u] to
    [url.pathname] gives, the hook's url id becomes [u] and the fallback
    record carries [u]; the primary [setMessages] of the same save is
    still given the url id of the render, which is the old, empty one. *)
Theorem new_url_id_is_not_passed_to_setMessages (env : Env Metadata)
    (messages : list Message.t) (w : World Metadata) (id u : string)
    (d : Db Metadata) (a : Artifact.t) :
  db env = Some d →
  firstArtifact env = Some a →
  JS.truthy (urlId w) = false →
  JS.truthy (Some (Artifact.id a)) = true →
  getUrlId d (Artifact.id a) = Normal u →
  JS.truthy (Some u) = true →
  chatId w = Some id →
  JS.truthy (Some id) = true →
  List.filter (λ m, negb (noStore m)) messages ≠ [] →
  roomy w →
  ∃ w' saved,
    storeMessageHistory env messages w = (Normal tt, w') ∧
    urlId w' = Some u ∧
    ReplaceState (pathname env ("/chat/" +:+ u)) ∈ effects w' ∧
    (getChatFromLocalStorage id w').1 = Normal (Some saved) ∧
    LocalStorageChat.urlId saved = Some u ∧
    SetMessages id
      (archivedMessages w ++ List.filter (λ m, negb (noStore m)) messages)
      (urlId w) (description w') (chatMetadata w) ∈ effects w'.
Proof.
  intros Hd Hfa Hturl Haid Hgu Htu Hid Ht Hkept [Hu Ha].
  destruct (lastItem_nonempty _ Hkept) as (lastMessage & Hlast).
  assert ((Z.of_nat (length messages) =? 0)%Z = false) as Hlen.
  { destruct messages; [done|]. apply Z.eqb_neq. simpl. lia. }
  unfold storeMessageHistory. rewrite Hlen, Hd, Hfa. clear Hlen Hkept.
  set (kept := List.filter _ messages) in *. clearbody kept.
  js_simpl. rewrite Hturl, Haid. js_simpl. rewrite Hgu. js_simpl.
  rewrite Hlast. js_simpl.
  match goal with
  | |- context [takeSnapshot ?e ?a ?b ?c ?d ?x] =>
      destruct (takeSnapshot_effects e a b c d x) as (es & Hts & _);
      rewrite Hts; clear Hts
  end; js_simpl.
  repeat (js_simpl; rewrite ?Hid, ?Ht, ?andb_false_r; try js_case').
  all: rewrite save_roomy by (split; [exact Hu | exact Ha]); js_simpl.
  all: eexists; eexists; (split; [reflexivity|]).
  all: rewrite getChatFromLocalStorage_answer; unfold available; js_simpl;
    rewrite Hu.
  all: unfold stored at 1; js_simpl.
  all: rewrite (find_upsert_id _ _ id) by reflexivity.
  all: unfold JS.or_else; rewrite Htu.
  all: split_and!; try done; among.
Qed.

(** X29.  With a primary store [duplicateCurrentChat] never throws and
    leaves the fallback store alone.  When [duplicateChat] answers an id,
    the page navigates to that chat and shows the success toast; when it
    throws, the toast [Failed to duplicate chat] is shown, the error is
    logged and the page does not navigate. *)
Theorem duplicateCurrentChat_with_primary_store (env : Env Metadata)
    (calls : DbCalls Metadata) (listItemId : string) (p : Page Metadata) :
  let target :=
    if JS.truthy (Some (mixedId env)) then mixedId env else listItemId in
  db env ≠ None →
  ∃ p',
    duplicateCurrentChat env calls listItemId p = (Normal tt, p') ∧
    storage (world p') = storage (world p) ∧
    (∀ newId, duplicateChat calls target = Normal newId →
       events p' = events p ++ [Navigate ("/chat/" +:+ newId) false;
                                ToastSuccess "Chat duplicated successfully"] ∧
       effects (world p') = effects (world p)) ∧
    (∀ error, duplicateChat calls target = Throw error →
       events p' = events p ++ [ConsoleLog error] ∧
       effects (world p') =
         effects (world p) ++ [ToastError "Failed to duplicate chat"]).
Proof.
  intros target Hdb.
  unfold duplicateCurrentChat. fold target.
  destruct (db env) as [d|]; [clear Hdb | done].
  ui_run.
  destruct (duplicateChat calls target) as [newId|error]; ui_run;
    (eexists; split; [reflexivity|]).
  - split_and!; [done | | by intros ?].
    intros ? [= <-]. simpl. by rewrite <- app_assoc.
  - split_and!; [done | by intros ? | by intros ? [= <-]].
Qed.

End Properties.

(** ** The properties on the sample data *)

(** C1.  The rewind target ["9"] is the id of no message of the sample
    chat.  The code computes [endingIdx = 0], not the length 4, and leaves
    an empty window, where without a rewind target the window is the whole
    chat. *)
Theorem absent_rewind_target_empties_window :
  let storedMessages := Example.item Example.messages in
  ("9" ∉ (Message.id <$> Example.messages)) ∧
  endingIdx Example.messages (Some "9") = 0%Z ∧
  Z.of_nat (length Example.messages) = 4%Z ∧
  initialMessages
    (processStoredMessages (Example.env (Some "9")) storedMessages None
       (Example.world None [] None)).2 = [] ∧
  initialMessages
    (processStoredMessages (Example.env None) storedMessages None
       (Example.world None [] None)).2 = Example.messages.
Proof.
  split; [by apply (bool_decide_unpack _); vm_compute|].
  by repeat split.
Qed.

Lemma rewind_to_anchor_witness :
  ∃ w',
    processStoredMessages (Example.env (Some "1"))
      (Example.item Example.messages) (Some Example.snapshot)
      (Example.world None [] None) = (Normal tt, w') ∧
    startingIdx Example.messages (Some Example.snapshot) (Some "1") = (-1)%Z ∧
    initialMessages w' = [Example.message "0"; Example.message "1"] ∧
    archivedMessages w' = [] ∧
    effects w' = [].
Proof.
  destruct (rewind_to_anchor_replays_from_start (Example.env (Some "1"))
              (Example.item Example.messages) (Some Example.snapshot)
              (Example.world None [] None) "1")
    as (w' & Hrun & Hs & Hinit & Harch & Heff);
    [reflexivity | reflexivity | reflexivity | reflexivity |].
  exists w'. split_and!; [exact Hrun | exact Hs | exact Hinit | exact Harch | exact Heff].
Defined.

Lemma restore_prepends_two_messages_witness :
  ∃ w' u a,
    processStoredMessages (Example.env (Some "2"))
      (Example.item Example.messages) (Some Example.snapshot)
      (Example.world None [] None) = (Normal tt, w') ∧
    initialMessages w' = [u; a; Example.message "2"] ∧
    archivedMessages w' = [Example.message "0"; Example.message "1"] ∧
    Message.role u = user ∧
    Message.annotations u = Some [JString "no-store"; JString "hidden"] ∧
    Message.role a = assistant ∧
    Message.id a = "1".
Proof.
  destruct (restore_prepends_two_messages (Example.env (Some "2"))
              (Example.item Example.messages) Example.snapshot
              (Example.world None [] None))
    as (w' & u & a & Hrun & Hinit & Harch & Hu & Hann & Ha & Hid);
    [reflexivity
    | intros r [= <-]; split; [reflexivity | vm_compute; reflexivity] |].
  exists w', u, a.
  split_and!;
    [exact Hrun | exact Hinit | exact Harch | exact Hu | exact Hann
    | exact Ha | exact Hid].
Defined.

Lemma no_snapshot_no_rewind_witness :
  ∃ w',
    processStoredMessages (Example.env None)
      (Example.item Example.messages) None
      (Example.world None [] None) = (Normal tt, w') ∧
    initialMessages w' = Example.messages ∧
    archivedMessages w' = [].
Proof.
  apply (no_snapshot_no_rewind_keeps_all (Example.env None)
           (Example.item Example.messages) (Example.world None [] None)).
  - reflexivity.
  - apply (bool_decide_unpack _). vm_compute. exact I.
Defined.

(** C6, as stated, fails on a chat with a message of empty id: with the
    stale snapshot nothing is archived, without a snapshot the placeholder's
    empty [chatIndex] matches the second message and both are archived. *)
Lemma unmatched_snapshot_differs_on_empty_id :
  let messages := [Example.message "a"; Example.message EmptyString] in
  let with_stale :=
    (processStoredMessages (Example.env None) (Example.item messages)
       (Some Example.stale) (Example.world None [] None)).2 in
  let without :=
    (processStoredMessages (Example.env None) (Example.item messages)
       None (Example.world None [] None)).2 in
  (Snapshot.chatIndex Example.stale ∉ (Message.id <$> messages)) ∧
  archivedMessages with_stale = [] ∧
  initialMessages with_stale = messages ∧
  archivedMessages without = messages ∧
  Message.id <$> initialMessages without = ["generated"; EmptyString] ∧
  archivedMessages with_stale ≠ archivedMessages without.
Proof.
  split; [by apply (bool_decide_unpack _); vm_compute|].
  by repeat split.
Qed.

Lemma unmatched_snapshot_witness :
  processStoredMessages (Example.env (Some "2"))
    (Example.item Example.messages) (Some Example.stale)
    (Example.world None [] None) =
  processStoredMessages (Example.env (Some "2"))
    (Example.item Example.messages) None
    (Example.world None [] None) ∧
  prepended (Example.env (Some "2")) Example.messages (Some Example.stale) = [] ∧
  prepended (Example.env (Some "2")) Example.messages None = [].
Proof.
  apply (unmatched_snapshot_is_ignored (Example.env (Some "2"))
           (Example.item Example.messages) Example.stale
           (Example.world None [] None)).
  - apply (bool_decide_unpack _). vm_compute. exact I.
  - apply (bool_decide_unpack _). vm_compute. exact I.
Defined.

(** C7.  A list whose only message is annotated [no-store] is not empty,
    so the guard on the length lets it through; the filter then empties
    it, and reading [role] of the missing last message throws.  This
    happens whether the chat id is missing (first part: no error is shown
    to the user) or present (second part: the save fails all the same). *)
Theorem storeMessageHistory_throws_when_nothing_to_store :
  storeMessageHistory (Example.env None) [Example.hidden]
    (Example.world None Example.messages None)
  = (Throw "TypeError", Example.world None Example.messages None) ∧
  storeMessageHistory (Example.env None) [Example.hidden]
    (Example.world (Some "7") Example.messages None)
  = (Throw "TypeError", Example.world (Some "7") Example.messages None).
Proof. by split. Qed.

(** C8, as stated, fails when the save leaves no room for the probe write
    of [isLocalStorageAvailable]: the save goes through, and the load
    right after it finds the store unavailable and answers [null]. *)
Lemma save_then_load_differs_without_room :
  let chat := Example.chat "7" Example.messages in
  let w1 := (saveChatToLocalStorage chat Example.tight).2 in
  saved chat Example.tight ∧
  stored w1 = [chat] ∧
  available (storage w1) = false ∧
  getChatFromLocalStorage "7" w1 = (Normal None, w1).
Proof. by repeat split. Qed.

Lemma save_then_load_witness :
  ∃ loaded,
    getChatFromLocalStorage "7"
      (saveChatToLocalStorage (Example.chat "7" Example.messages)
         (Example.world None [] (Some [Example.chat "5" []]))).2
    = (Normal (Some loaded),
       (saveChatToLocalStorage (Example.chat "7" Example.messages)
         (Example.world None [] (Some [Example.chat "5" []]))).2) ∧
    LocalStorageChat.messages loaded = Example.messages ∧
    LocalStorageChat.description loaded = Some "a chat" ∧
    LocalStorageChat.metadata loaded = Some tt.
Proof.
  apply (save_then_load_returns_saved (Example.chat "7" Example.messages)
           (Example.world None [] (Some [Example.chat "5" []])));
    reflexivity.
Defined.

Lemma save_replaces_or_appends_witness :
  let chat := Example.chat "7" Example.messages in
  let old := [Example.chat "5" []; Example.chat "7" []] in
  let new := stored (saveChatToLocalStorage chat
                       (Example.world None [] (Some old))).2 in
  new = [Example.chat "5" []; chat] ∧
  entries "7" new = 1%nat.
Proof.
  intros chat old new.
  destruct (save_replaces_or_appends chat (Example.world None [] (Some old)))
    as (Hreplace & _ & _ & Hentries); [reflexivity|].
  split; [reflexivity | exact Hentries].
Defined.

Lemma saveMessagesToLocalStorage_without_id_witness :
  saveMessagesToLocalStorage "2024-01-01T00:00:00.000Z" Example.messages
    (Some EmptyString) (Example.world None [] None)
  = (Normal tt, Example.world None [] None).
Proof.
  apply (saveMessagesToLocalStorage_without_id (Metadata := unit));
    reflexivity.
Defined.

(** ** The further properties on the sample data *)

(** *** The fallback store *)

Lemma unusable_store_is_left_alone_witness :
  let w := Example.unusable (Some [Example.chat "5" Example.messages]) in
  storage (saveChatToLocalStorage (Example.chat "7" Example.messages) w).2
    = storage w ∧
  storage (clearLocalStorageChats w).2 = storage w ∧
  (getChatFromLocalStorage "5" w).1 = Normal None ∧
  (getCurrentChatId w).1 = Normal None.
Proof.
  intros w.
  destruct (unusable_store_is_left_alone (Example.chat "7" Example.messages)
              "5" (Some "7") w)
    as (Hsave & _ & _ & Hclear & _ & Hget & Hcur); [reflexivity|].
  split_and!; [exact Hsave | exact Hclear | exact Hget | exact Hcur].
Defined.

Lemma save_twice_is_save_once_witness :
  let chat := Example.chat "7" Example.messages in
  let w1 := (saveChatToLocalStorage chat
               (Example.world None [] (Some [Example.chat "5" []]))).2 in
  storage (saveChatToLocalStorage chat w1).2 = storage w1 ∧
  saved chat w1.
Proof.
  intros chat w1.
  destruct (save_twice_is_save_once chat
              (Example.world None [] (Some [Example.chat "5" []])))
    as [Hsame Hagain]; [reflexivity|].
  split; [exact Hsame | apply Hagain; reflexivity].
Defined.

Lemma save_keeps_other_chats_witness :
  let w := Example.world None [] (Some [Example.chat "5" Example.messages]) in
  (getChatFromLocalStorage "5"
     (saveChatToLocalStorage (Example.chat "7" []) w).2).1
  = Normal (Some (Example.chat "5" Example.messages)).
Proof.
  intros w.
  rewrite (save_keeps_other_chats (Example.chat "7" []) "5" w);
    [reflexivity | reflexivity | simpl; discriminate | reflexivity].
Defined.

Lemma save_keeps_ids_distinct_witness :
  let w := Example.world None []
             (Some [Example.chat "5" []; Example.chat "7" []]) in
  NoDup (LocalStorageChat.id <$>
           stored (saveChatToLocalStorage (Example.chat "8" Example.messages) w).2).
Proof.
  intros w.
  apply (save_keeps_ids_distinct (Example.chat "8" Example.messages) w);
    [reflexivity | apply (bool_decide_unpack _); vm_compute; exact I].
Defined.

Lemma delete_then_load_witness :
  let w := Example.world None []
             (Some [Example.chat "5" Example.messages; Example.chat "7" []]) in
  let w1 := (deleteChatFromLocalStorage "5" w).2 in
  (getChatFromLocalStorage "5" w1).1 = Normal None ∧
  (getChatFromLocalStorage "7" w1).1 = (getChatFromLocalStorage "7" w).1.
Proof.
  intros w w1.
  destruct (delete_then_load "5" "7" w) as [Hgone Hother]; [reflexivity|].
  split; [exact Hgone | refine (Hother _); discriminate].
Defined.

Lemma save_then_delete_restores_witness :
  let w := Example.world None []
             (Some [Example.chat "5" Example.messages; Example.chat "7" []]) in
  let w1 := (saveChatToLocalStorage (Example.chat "8" Example.messages) w).2 in
  stored (deleteChatFromLocalStorage "8" w1).2 = stored w.
Proof.
  intros w w1.
  apply (save_then_delete_restores (Example.chat "8" Example.messages) w);
    [apply (bool_decide_unpack _); vm_compute; exact I
    | reflexivity | reflexivity].
Defined.

Lemma current_chat_pointer_round_trip_witness :
  let w := Example.world None [] (Some [Example.chat "7" Example.messages]) in
  (getCurrentChatId (setCurrentChatId (Some "7") w).2).1 = Normal (Some "7") ∧
  stored (setCurrentChatId (Some "7") w).2 = stored w.
Proof.
  intros w.
  destruct (current_chat_pointer_round_trip (Some "7") w)
    as (Hset & _ & Hstored); [reflexivity|].
  split; [refine (Hset "7" _ _ _); reflexivity | exact Hstored].
Defined.

Lemma clear_empties_the_store_witness :
  let w := Example.world None [] (Some [Example.chat "7" Example.messages]) in
  let w1 := (clearLocalStorageChats w).2 in
  (getAllChatsFromLocalStorage w1).1 = Normal [] ∧
  (getChatFromLocalStorage "7" w1).1 = Normal None ∧
  (getCurrentChatId w1).1 = Normal None.
Proof.
  intros w w1.
  apply (clear_empties_the_store "7" w).
  reflexivity.
Defined.

(** *** The chat store *)

Lemma saveMessages_replaces_the_record_witness :
  let w := Example.world None [] (Some [Example.chat "7" []]) in
  (getChatFromLocalStorage "7"
     (saveMessagesToLocalStorage "2024-02-02T00:00:00.000Z" Example.messages
        (Some "7") w).2).1 =
  Normal (Some {| LocalStorageChat.id := "7";
                  LocalStorageChat.urlId := None;
                  LocalStorageChat.description := None;
                  LocalStorageChat.messages := Example.messages;
                  LocalStorageChat.timestamp := "2024-02-02T00:00:00.000Z";
                  LocalStorageChat.metadata := None |}).
Proof.
  intros w.
  apply (saveMessages_replaces_the_record "2024-02-02T00:00:00.000Z" "7"
           Example.messages w);
    [reflexivity | split; [intros ? ?; reflexivity | intros ?; reflexivity]].
Defined.

Lemma chat_store_survives_reload_witness :
  let w := Example.world None [] None in
  let w1 := (setCurrentChat (Some "7") w).2 in
  let w2 := (saveMessagesToLocalStorage "2024-02-02T00:00:00.000Z"
               Example.messages None w1).2 in
  let w3 := (initializeChatStore (with_chatStore initialChatState w2)).2 in
  ChatState.currentChatId (chatStore w3) = Some "7" ∧
  ChatState.messages (chatStore w3) = Example.messages ∧
  (getCurrentChatMessages w3).1 = Normal Example.messages.
Proof.
  intros w w1 w2 w3.
  apply (chat_store_survives_reload "2024-02-02T00:00:00.000Z" "7"
           Example.messages w);
    [reflexivity | split; [intros ? ?; reflexivity | intros ?; reflexivity] | reflexivity].
Defined.
(** *** Saving the history *)

Lemma storeMessageHistory_mirrors_to_fallback_witness :
  let w := Example.world (Some "7") [] None in
  ∃ w' saved,
    storeMessageHistory Example.env_failing (Example.messages ++ [Example.hidden]) w
      = (Normal tt, w') ∧
    getChatFromLocalStorage "7" w' = (Normal (Some saved), w') ∧
    LocalStorageChat.messages saved = Example.messages.
Proof.
  intros w.
  destruct (storeMessageHistory_mirrors_to_fallback Example.env_failing
              (Example.messages ++ [Example.hidden]) w "7")
    as (w' & saved & Hrun & Hget & _ & Hmessages & _);
    [reflexivity | reflexivity | vm_compute; discriminate
    | intros d a Hd _ _ _; injection Hd as <-; eexists; reflexivity
    | split; [intros ? ?; reflexivity | intros ?; reflexivity] |].
  exists w', saved. split_and!; [exact Hrun | exact Hget | exact Hmessages].
Defined.

Lemma first_save_takes_no_snapshot_witness :
  snapshots (effects (storeMessageHistory Example.env_failing Example.messages
                        (Example.world None [] None)).2) = 0%nat.
Proof.
  apply (first_save_takes_no_snapshot Example.env_failing Example.messages
           (Example.world None [] None)).
  reflexivity.
Defined.

Lemma first_save_assigns_the_id_witness :
  let w := Example.unparsable in
  ∃ w' saved,
    storeMessageHistory (Example.env None) Example.messages w = (Normal tt, w') ∧
    chatId w' = Some "1704067200000" ∧
    (getCurrentChatId w').1 = Normal (Some "1704067200000") ∧
    (getChatFromLocalStorage "1704067200000" w').1 = Normal (Some saved) ∧
    LocalStorageChat.messages saved = Example.messages ∧
    effects w' = [ConsoleError "Error reading chats from LocalStorage:"].
Proof.
  intros w.
  apply (first_save_assigns_the_id (Example.env None) Example.messages w);
    [reflexivity | reflexivity | reflexivity | vm_compute; discriminate
    | reflexivity | split; [intros ? ?; reflexivity | intros ?; reflexivity]
    | reflexivity].
Defined.

Lemma reload_then_save_keeps_history_witness :
  let w := Example.world None [] None in
  ∃ w1 w2 saved,
    processStoredMessages (Example.env (Some "2"))
      (Example.item Example.messages) (Some Example.snapshot) w
      = (Normal tt, w1) ∧
    storeMessageHistory (Example.env (Some "2"))
      (initialMessages w1 ++ [Example.message "4"]) w1 = (Normal tt, w2) ∧
    getChatFromLocalStorage "7" w2 = (Normal (Some saved), w2) ∧
    LocalStorageChat.messages saved =
      [Example.message "0"; Example.message "1"; Example.message "2";
       Example.message "4"].
Proof.
  intros w.
  apply (reload_then_save_keeps_history (Example.env (Some "2"))
           (Example.item Example.messages) (Some Example.snapshot)
           [Example.message "4"] w);
    [reflexivity
    | apply Forall_forall; repeat constructor
    | vm_compute; discriminate
    | intros d a Hd; discriminate Hd
    | split; [intros ? ?; reflexivity | intros ?; reflexivity]].
Defined.

Lemma new_url_id_is_not_passed_to_setMessages_witness :
  let w := Example.world (Some "7") [] None in
  ∃ w' saved,
    storeMessageHistory Example.env_failing Example.messages w = (Normal tt, w') ∧
    urlId w' = Some "u1" ∧
    (getChatFromLocalStorage "7" w').1 = Normal (Some saved) ∧
    LocalStorageChat.urlId saved = Some "u1" ∧
    ReplaceState "/chat/u1" ∈ effects w' ∧
    SetMessages "7" Example.messages None (description w') None ∈ effects w'.
Proof.
  intros w.
  destruct (new_url_id_is_not_passed_to_setMessages Example.env_failing
              Example.messages w "7" "u1" Example.failing Example.artifact)
    as (w' & saved & Hrun & Hurl & Hpath & Hget & Hsaved & Hcall);
    [reflexivity | reflexivity | reflexivity | reflexivity | reflexivity
    | reflexivity | reflexivity | reflexivity | vm_compute; discriminate
    | split; [intros ? ?; reflexivity | intros ?; reflexivity] |].
  exists w', saved.
  split_and!;
    [exact Hrun | exact Hurl | exact Hget | exact Hsaved | exact Hpath
    | exact Hcall].
Defined.

(** *** Loading and duplicating a chat *)

Lemma loadChat_prefers_the_primary_store_witness :
  let p := Example.page (Example.world None [] (Some [Example.chat "7" []])) in
  loadChat Example.env_failing Example.answering p =
    (Normal tt,
     {| world := (processStoredMessages Example.env_failing
                    (Example.item Example.messages) (Some Example.snapshot)
                    (world p)).2;
        events := [] |}).
Proof.
  intros p.
  apply (loadChat_prefers_the_primary_store Example.env_failing
           Example.answering p (Example.item Example.messages)
           (Some Example.snapshot));
    [reflexivity
    | split_and!; [discriminate | reflexivity | reflexivity | discriminate]].
Defined.

Lemma loadChat_falls_back_witness :
  let p := Example.page
             (Example.world None [] (Some [Example.chat "7" Example.messages])) in
  ∃ p',
    loadChat Example.env_failing Example.throwing p = (Normal tt, p') ∧
    initialMessages (world p') = Example.messages ∧
    chatId (world p') = Some "7" ∧
    urlId (world p') = Some "7" ∧
    ready (world p') = true.
Proof.
  intros p.
  destruct (loadChat_falls_back Example.env_failing Example.throwing p
              (Example.chat "7" Example.messages))
    as (p' & logged & Hrun & Hinit & Hid & Hurl & _ & Hready & _);
    [reflexivity
    | intros stored snapshot (_ & Hget & _); discriminate Hget
    | reflexivity | discriminate |].
  exists p'.
  split_and!; [exact Hrun | exact Hinit | exact Hid | exact Hurl | exact Hready].
Defined.

Lemma loadChat_not_found_witness :
  let p := Example.page (Example.world None [] (Some [Example.chat "7" []])) in
  ∃ p' logged,
    loadChat Example.env_failing Example.throwing p = (Normal tt, p') ∧
    events p' = logged ++ [Navigate "/" true] ∧
    ready (world p') = true ∧
    initialMessages (world p') = [].
Proof.
  intros p.
  destruct (loadChat_not_found Example.env_failing Example.throwing p)
    as (p' & logged & Hrun & Hevents & _ & Hready & Hinit & _);
    [reflexivity
    | intros stored snapshot (_ & Hget & _); discriminate Hget
    | intros chat Hget; vm_compute in Hget; injection Hget as <-; reflexivity |].
  exists p', logged.
  split_and!; [exact Hrun | exact Hevents | exact Hready | exact Hinit].
Defined.

Lemma fallback_only_save_then_load_witness :
  let w := Example.world (Some "7") [] None in
  let p := Example.page
             (storeMessageHistory (Example.env None) Example.messages w).2 in
  ∃ p',
    loadChat (Example.env None) Example.throwing p = (Normal tt, p') ∧
    initialMessages (world p') = Example.messages ∧
    chatId (world p') = Some "7" ∧
    events p' = [].
Proof.
  intros w p.
  apply (fallback_only_save_then_load (Example.env None) (Example.env None)
           Example.throwing Example.messages w p "7");
    [reflexivity | reflexivity | reflexivity | reflexivity | reflexivity
    | vm_compute; discriminate
    | split; [intros ? ?; reflexivity | intros ?; reflexivity]
    | reflexivity].
Defined.

Lemma duplicateCurrentChat_copies_witness :
  let p := Example.page
             (Example.world None [] (Some [Example.chat "7" Example.messages])) in
  ∃ p' copy,
    duplicateCurrentChat (Example.env None) Example.throwing "5" p
      = (Normal tt, p') ∧
    (getChatFromLocalStorage "1704067200000" (world p')).1 = Normal (Some copy) ∧
    LocalStorageChat.messages copy = Example.messages ∧
    LocalStorageChat.description copy = Some "a chat (copy)" ∧
    events p' = [Navigate "/chat/1704067200000" false;
                 ToastSuccess "Chat duplicated successfully"] ∧
    (getChatFromLocalStorage "7" (world p')).1
      = Normal (Some (Example.chat "7" Example.messages)).
Proof.
  intros p.
  destruct (duplicateCurrentChat_copies (Example.env None) Example.throwing
              "5" p (Example.chat "7" Example.messages))
    as (p' & copy & Hrun & Hget & Hmessages & _ & _ & Hdescription & Hevents
        & _ & Hkept);
    [reflexivity | reflexivity
    | split; [intros ? ?; reflexivity | intros ?; reflexivity] | reflexivity |].
  exists p', copy.
  split_and!;
    [exact Hrun | exact Hget | exact Hmessages | exact Hdescription
    | exact Hevents | apply Hkept; discriminate].
Defined.

Lemma duplicateCurrentChat_not_found_witness :
  let p := Example.page Example.unparsable in
  ∃ p',
    duplicateCurrentChat (Example.env None) Example.throwing "5" p
      = (Normal tt, p') ∧
    storage (world p') = storage (world p) ∧
    effects (world p') =
      [ConsoleError "Error reading chats from LocalStorage:";
       ToastError "Chat not found"] ∧
    events p' = [].
Proof.
  intros p.
  apply (duplicateCurrentChat_not_found (Example.env None) Example.throwing
           "5" p);
    reflexivity.
Defined.

(** *** Snapshots at the ends of the chat *)

Lemma snapshot_at_last_message_witness :
  let S := {| Snapshot.chatIndex := "3"; Snapshot.files := [];
              Snapshot.summary := None |} in
  ∃ w',
    processStoredMessages (Example.env None) (Example.item Example.messages)
      (Some S) (Example.world None [] None) = (Normal tt, w') ∧
    archivedMessages w' = Example.messages ∧
    initialMessages w' = restoreMessages (Example.env None) (Some S) "3".
Proof.
  intros S.
  apply (snapshot_at_last_message (Example.env None)
           (Example.item Example.messages) S (Example.message "3")
           (Example.world None [] None));
    [reflexivity | apply (bool_decide_unpack _); vm_compute; exact I
    | reflexivity | reflexivity | simpl; lia].
Defined.

Lemma snapshot_at_first_message_witness :
  let S := {| Snapshot.chatIndex := "0"; Snapshot.files := [];
              Snapshot.summary := None |} in
  ∃ w',
    processStoredMessages (Example.env None) (Example.item Example.messages)
      (Some S) (Example.world None [] None) = (Normal tt, w') ∧
    archivedMessages w' = [Example.message "0"] ∧
    initialMessages w' =
      [Example.message "1"; Example.message "2"; Example.message "3"] ∧
    effects w' = [].
Proof.
  intros S.
  apply (snapshot_at_first_message (Example.env None)
           (Example.item Example.messages) (Some S)
           (Example.world None [] None));
    reflexivity.
Defined.

Lemma duplicateCurrentChat_with_primary_store_witness :
  let p := Example.page (Example.world None [] None) in
  ∃ p',
    duplicateCurrentChat Example.env_failing Example.throwing "5" p
      = (Normal tt, p') ∧
    storage (world p') = storage (world p) ∧
    events p' = [ConsoleLog "InvalidStateError"] ∧
    effects (world p') = [ToastError "Failed to duplicate chat"].
Proof.
  intros p.
  destruct (duplicateCurrentChat_with_primary_store Example.env_failing
              Example.throwing "5" p)
    as (p' & Hrun & Hstorage & _ & Hthrow); [discriminate|].
  destruct (Hthrow "InvalidStateError") as [Hevents Heffects]; [reflexivity|].
  exists p'.
  split_and!; [exact Hrun | exact Hstorage | exact Hevents | exact Heffects].
Defined.
